(** * Attendance tracker: event store, session matcher, duration calculator
      and aggregator of [attendance_app.py], embedded and verified.

    The module-level list [attendance_log] is threaded explicitly as a
    [store]; the per-user dictionary built by [calculate_durations] is a
    [gmap]; binary64 arithmetic is Rocq's [spec_float] specification of
    IEEE 754; exceptions are an explicit [result] type.  The webhook
    handler works on decoded JSON bodies, [pyval], and feeds the store
    through [log_join] and [log_leave]. *)

From Stdlib Require Import ZArith Lia Bool Ascii.
From Stdlib Require Import Floats.SpecFloat.
From stdpp Require Import gmap strings list fin_maps pretty.

Local Open Scope Z_scope.

(* ===================================================================== *)
(** * Exceptions *)
(* ===================================================================== *)

(** The exception classes that the modelled code can meet. *)
Inductive exn := ValueError | AttributeError | TypeError.

(** A Python computation: a value, or a raised exception. *)
Inductive result (A : Type) :=
| Ok (a : A)
| Raise (e : exn).
Arguments Ok {A} a.
Arguments Raise {A} e.

(** Sequencing: an exception raised by the first step skips the rest. *)
#[global] Instance result_bind : MBind result := fun A B k r =>
  match r with
  | Ok a => k a
  | Raise e => Raise e
  end.
#[global] Instance result_ret : MRet result := fun A a => Ok a.

(** [try: body except (e1, e2, ...): handler]. *)
Definition try_except {A} (body : result A) (caught : exn -> bool)
    (handler : result A) : result A :=
  match body with
  | Ok a => Ok a
  | Raise e => if caught e then handler else Raise e
  end.

(* ===================================================================== *)
(** * Binary64 floats *)
(* ===================================================================== *)

(** Python's [float] is IEEE 754 binary64: [prec = 53], [emax = 1024]. *)
Abbreviation float := spec_float.

Definition fdiv : float -> float -> float := SFdiv 53 1024.
Definition fadd : float -> float -> float := SFadd 53 1024.

(** The literal [0.0]. *)
Definition fzero : float := S754_zero false.

(** An integer as an exact, unrounded binary number (exponent 0). *)
Definition exact_of_Z (z : Z) : float :=
  match z with
  | Z0 => S754_zero false
  | Zpos p => S754_finite false p 0
  | Zneg p => S754_finite true p 0
  end.

(** [float(z)]: the integer rounded to nearest-even. *)
Definition float_of_Z (z : Z) : float := binary_normalize 53 1024 z 0 false.

(** [a / b] on Python integers (true division): the exact quotient,
    rounded once to nearest-even.  [SFdiv]'s core computes enough quotient
    bits for mantissas of any size, so the exact operands can be fed in. *)
Definition int_truediv (a b : Z) : float := fdiv (exact_of_Z a) (exact_of_Z b).

(** The sign bit of a float ([None] for NaN). *)
Definition fsign (x : float) : option bool :=
  match x with
  | S754_zero s | S754_infinity s | S754_finite s _ _ => Some s
  | S754_nan => None
  end.

#[global] Instance float_eq_dec : EqDecision float.
Proof. solve_decision. Defined.

(* ===================================================================== *)
(** * [datetime] and [timedelta] *)
(* ===================================================================== *)

(** A [datetime] value.  [tzinfo] is [None] for a naive value and
    [Some off] for an aware one, [off] being the UTC offset in
    microseconds. *)
Record datetime := {
  year : Z; month : Z; day : Z;
  hour : Z; minute : Z; second : Z; microsecond : Z;
  tzinfo : option Z
}.

Definition is_leap (y : Z) : bool :=
  (y mod 4 =? 0) && (negb (y mod 100 =? 0) || (y mod 400 =? 0)).

Definition days_in_month (y m : Z) : Z :=
  if m =? 2 then (if is_leap y then 29 else 28)
  else if (m =? 4) || (m =? 6) || (m =? 9) || (m =? 11) then 30
  else 31.

Definition days_before_year (y : Z) : Z :=
  let p := y - 1 in p * 365 + p / 4 - p / 100 + p / 400.

Fixpoint days_in_months (y : Z) (n : nat) : Z :=
  match n with
  | O => 0
  | S k => days_in_months y k + days_in_month y (Z.of_nat n)
  end.

Definition days_before_month (y m : Z) : Z :=
  days_in_months y (Z.to_nat (m - 1)).

(** [datetime.toordinal()]: proleptic Gregorian day number, day 1 being
    0001-01-01. *)
Definition toordinal (d : datetime) : Z :=
  days_before_year (year d) + days_before_month (year d) (month d) + day d.

(** A [timedelta], as its total number of microseconds. *)
Abbreviation timedelta := Z.

Definition clock_seconds (d : datetime) : Z :=
  second d + minute d * 60 + hour d * 3600.

(** [l - j] on two datetimes ([datetime.__sub__]): the difference of the
    wall-clock fields, corrected by the two UTC offsets when both values
    are aware; mixing a naive and an aware value raises [TypeError]. *)
Definition datetime_sub (l j : datetime) : result timedelta :=
  let base := ((toordinal l - toordinal j) * 86400
               + (clock_seconds l - clock_seconds j)) * 1000000
              + (microsecond l - microsecond j) in
  match tzinfo l, tzinfo j with
  | None, None => Ok base
  | Some myoff, Some otoff => Ok (base + otoff - myoff)
  | _, _ => Raise TypeError
  end.

(** [timedelta.total_seconds()]: integer microseconds divided (true
    division) by [10**6]. *)
Definition total_seconds (td : timedelta) : float := int_truediv td 1000000.

(* ===================================================================== *)
(** * [datetime.fromisoformat]: the documented grammar *)
(* ===================================================================== *)

(** [datetime.fromisoformat] belongs to Python's library, not to the
    program.  The general results below hold for any parser and take it
    as a parameter.  [iso_parse] is not that function: it reads the one
    format the library documents for Python 3.7 to 3.10,
    [YYYY-MM-DD[*HH[:MM[:SS[.fff[fff]]]][+HH:MM[:SS[.ffffff]]]]] with any
    single character for [*], as CPython reads it, and rejects the
    further ISO 8601 forms that Python 3.11 and later accept.  It serves
    to evaluate concrete calls on strings of that format only. *)

Definition digit_val (c : ascii) : option Z :=
  let n := Z.of_N (Ascii.N_of_ascii c) in
  if (48 <=? n) && (n <=? 57) then Some (n - 48) else None.

(** [n] leading decimal digits of [s], and what follows them. *)
Fixpoint take_digits (n : nat) (acc : Z) (s : string) : option (Z * string) :=
  match n with
  | O => Some (acc, s)
  | S k =>
      match s with
      | String c s' =>
          match digit_val c with
          | Some d => take_digits k (acc * 10 + d) s'
          | None => None
          end
      | EmptyString => None
      end
  end.

Definition expect (c : ascii) (s : string) : option string :=
  match s with
  | String c' s' => if Ascii.eqb c c' then Some s' else None
  | EmptyString => None
  end.

(** [YYYY-MM-DD], then the rest of the string. *)
Definition parse_date (s : string) : option (Z * Z * Z * string) :=
  '(y, s) ← take_digits 4 0 s;
  s ← expect "-" s;
  '(m, s) ← take_digits 2 0 s;
  s ← expect "-" s;
  '(d, s) ← take_digits 2 0 s;
  Some (y, m, d, s).

(** The fraction [.fff] or [.ffffff], as microseconds. *)
Definition parse_fraction (s : string) : option Z :=
  match String.length s with
  | 3%nat => '(f, _) ← take_digits 3 0 s; Some (f * 1000)
  | 6%nat => '(f, _) ← take_digits 6 0 s; Some f
  | _ => None
  end.

(** [HH[:MM[:SS[.fff[fff]]]]], the whole string. *)
Definition parse_hh_mm_ss_ff (s : string) : option (Z * Z * Z * Z) :=
  '(h, s) ← take_digits 2 0 s;
  match s with
  | EmptyString => Some (h, 0, 0, 0)
  | _ =>
      s ← expect ":" s;
      '(m, s) ← take_digits 2 0 s;
      match s with
      | EmptyString => Some (h, m, 0, 0)
      | _ =>
          s ← expect ":" s;
          '(sec, s) ← take_digits 2 0 s;
          match s with
          | EmptyString => Some (h, m, sec, 0)
          | _ => s ← expect "." s; f ← parse_fraction s; Some (h, m, sec, f)
          end
      end
  end.

(** Splits a time string at its first ['+'] or ['-']: the part before it,
    and the sign with the part after it when there is one. *)
Fixpoint split_tz (s : string) : string * option (bool * string) :=
  match s with
  | EmptyString => (EmptyString, None)
  | String c s' =>
      if Ascii.eqb c "+" then (EmptyString, Some (false, s'))
      else if Ascii.eqb c "-" then (EmptyString, Some (true, s'))
      else let '(t, z) := split_tz s' in (String c t, z)
  end.

(** The UTC offset [HH:MM[:SS[.ffffff]]] in microseconds.  CPython
    returns UTC as soon as the whole seconds of the offset are zero,
    whatever the fraction; otherwise a [timezone] offset must be strictly
    between -24 h and +24 h. *)
Definition parse_offset (neg : bool) (s : string) : option Z :=
  let n := String.length s in
  if negb ((n =? 5)%nat || (n =? 8)%nat || (n =? 15)%nat) then None else
  '(h, m, sec, f) ← parse_hh_mm_ss_ff s;
  let seconds := h * 3600 + m * 60 + sec in
  if seconds =? 0 then Some 0 else
  let us := seconds * 1000000 + f in
  if us <? 86400 * 1000000 then Some (if neg then - us else us) else None.

Definition in_range (lo x hi : Z) : bool := (lo <=? x) && (x <=? hi).

(** The range checks of the [datetime] constructor. *)
Definition valid_datetime (d : datetime) : bool :=
  in_range 1 (year d) 9999 && in_range 1 (month d) 12
  && in_range 1 (day d) (days_in_month (year d) (month d))
  && in_range 0 (hour d) 23 && in_range 0 (minute d) 59
  && in_range 0 (second d) 59 && in_range 0 (microsecond d) 999999.

Definition checked (d : datetime) : option datetime :=
  if valid_datetime d then Some d else None.

Definition iso_parse (s : string) : option datetime :=
  '(y, m, d, rest) ← parse_date s;
  match rest with
  | EmptyString => checked (Build_datetime y m d 0 0 0 0 None)
  | String _ tstr =>
      let '(t, z) := split_tz tstr in
      '(h, mi, sec, f) ← parse_hh_mm_ss_ff t;
      match z with
      | None => checked (Build_datetime y m d h mi sec f None)
      | Some (neg, zs) =>
          off ← parse_offset neg zs;
          checked (Build_datetime y m d h mi sec f (Some off))
      end
  end.

(* ===================================================================== *)
(** * The event store *)
(* ===================================================================== *)

(** One dictionary of [attendance_log].  [event] is the string flag
    ["joined"] / ["left"]; [leave_time] is [None] until the leave is
    logged; [timestamp] is the wall-clock reading taken by [log_join]. *)
Record entry := {
  event : string;
  meeting_id : string;
  user_id : string;
  user_name : string;
  join_time : string;
  leave_time : option string;
  timestamp : string
}.

#[global] Instance entry_eq_dec : EqDecision entry.
Proof. solve_decision. Defined.

(** The global list [attendance_log], oldest entry first. *)
Abbreviation store := (list entry).

(** Python truthiness of a string: non-empty. *)
Definition truthy (s : string) : bool := negb (bool_decide (s = EmptyString)).

(** [s.replace("Z", "+00:00")]: every occurrence is replaced. *)
Fixpoint replace_Z (s : string) : string :=
  match s with
  | EmptyString => EmptyString
  | String c s' =>
      if Ascii.eqb c "Z" then "+00:00" +:+ replace_Z s'
      else String c (replace_Z s')
  end.

(** What [log_leave] prints.  It is no value the Python function
    returns (see [log_leave_value]): the two exits differ by the line
    printed only, the duration line after a match or the
    no-matching-join warning. *)
Inductive outcome :=
| matched (duration : float)
| unmatched.

(** The body of [GET /logs]. *)
Inductive logs_response :=
| all_logs (logs : store) (total_entries : nat)
| filtered_logs (logs : store) (filtered_by_meeting : string).

(** The body of [DELETE /logs]. *)
Record clear_response := { message : string; remaining : Z }.

(** One value of the dictionary built by [calculate_durations]. *)
Record bucket := {
  bucket_user_name : string;
  total_minutes : float;
  sessions : Z
}.

(** The body of [GET /report/{meeting_id}]. *)
Record report_response := {
  report_meeting_id : string;
  attendance : gmap string bucket;
  total_participants : nat
}.

(** [log_join]: append a fresh ["joined"] entry; [now] is the reading of
    [datetime.now().isoformat()]. *)
Definition log_join (now : string) (m u name jt : string) (s : store) : store :=
  s ++ [ {| event := "joined"; meeting_id := m; user_id := u;
            user_name := name; join_time := jt; leave_time := None;
            timestamp := now |} ].

(** The condition tested on each entry by [log_leave]. *)
Definition is_open_for (m u : string) (e : entry) : bool :=
  bool_decide (event e = "joined") && bool_decide (meeting_id e = m)
  && bool_decide (user_id e = u) && bool_decide (leave_time e = None).

(** The loop over [reversed(attendance_log)].  The argument is what is
    left to visit, most recent first; its head sits at index
    [length older] of the log. *)
Fixpoint find_open (m u : string) (newest_first : list entry) : option (nat * entry) :=
  match newest_first with
  | [] => None
  | e :: older =>
      if is_open_for m u e then Some (length older, e)
      else find_open m u older
  end.

(** The two assignments made to the matched entry. *)
Definition close_entry (lt : string) (e : entry) : entry :=
  {| event := "left"; meeting_id := meeting_id e; user_id := user_id e;
     user_name := user_name e; join_time := join_time e;
     leave_time := Some lt; timestamp := timestamp e |}.

(** The test made on each entry by [calculate_durations]. *)
Definition completed (e : entry) : bool :=
  truthy (join_time e) &&
  match leave_time e with Some lt => truthy lt | None => false end.

Definition qualifies (m : string) (e : entry) : bool :=
  bool_decide (meeting_id e = m) && completed e.

(** [get_logs]: everything, or the entries of one meeting. *)
Definition get_logs (m : option string) (s : store) : logs_response :=
  match m with
  | Some m =>
      if truthy m then filtered_logs (filter (λ e, meeting_id e = m) s) m
      else all_logs s (length s)
  | None => all_logs s (length s)
  end.

(** [clear_logs]: rebind the global to a fresh empty list. *)
Definition clear_logs (s : store) : store * clear_response :=
  let count := length s in
  ([], {| message := "Cleared " +:+ pretty count +:+ " log entries";
          remaining := 0 |}).

Section Engine.

(** [datetime.fromisoformat] on a string; [None] stands for the
    [ValueError] it raises. *)
Variable fromisoformat : string → option datetime.

Definition parse_timestamp (t : string) : result datetime :=
  match fromisoformat (replace_Z t) with
  | Some d => Ok d
  | None => Raise ValueError
  end.

(** The [except (ValueError, AttributeError)] clause. *)
Definition caught (e : exn) : bool :=
  match e with
  | ValueError | AttributeError => true
  | TypeError => false
  end.

Definition calculate_duration (jt lt : string) : result float :=
  try_except
    (j ← parse_timestamp jt;
     l ← parse_timestamp lt;
     td ← datetime_sub l j;
     Ok (fdiv (total_seconds td) (float_of_Z 60)))
    caught
    (Ok fzero).

(** [log_leave]: close the most recent open entry of the pair, then
    compute its duration for the message.  The entry is mutated before the
    duration is computed, so the store changes even when that raises.
    The result is the store left behind, and the line printed or the
    exception raised. *)
Definition log_leave (m u lt : string) (s : store) : store * result outcome :=
  match find_open m u (reverse s) with
  | Some (i, e) =>
      (<[i := close_entry lt e]> s,
       d ← calculate_duration (join_time e) lt; Ok (matched d))
  | None => (s, Ok unmatched)
  end.

(** The value [log_leave] returns: [None], written [()], after the bare
    [return] of a match as after the warning, unless the duration
    raised. *)
Definition log_leave_value (m u lt : string) (s : store) : result unit :=
  match (log_leave m u lt s).2 with
  | Ok _ => Ok ()
  | Raise e => Raise e
  end.

(** The three dictionary updates made for one qualifying entry. *)
Definition add_session (e : entry) (duration : float)
    (durations : gmap string bucket) : gmap string bucket :=
  let durations :=
    match durations !! user_id e with
    | None => <[user_id e := {| bucket_user_name := user_name e;
                                total_minutes := fzero;
                                sessions := 0 |}]> durations
    | Some _ => durations
    end in
  let durations :=
    alter (λ b, {| bucket_user_name := bucket_user_name b;
                   total_minutes := fadd (total_minutes b) duration;
                   sessions := sessions b |}) (user_id e) durations in
  alter (λ b, {| bucket_user_name := bucket_user_name b;
                 total_minutes := total_minutes b;
                 sessions := sessions b + 1 |}) (user_id e) durations.

(** The loop of [calculate_durations], the dictionary being threaded.
    A [leave_time] of [None] is falsy, a string is truthy when non-empty. *)
Fixpoint accumulate (m : string) (entries : list entry)
    (durations : gmap string bucket) : result (gmap string bucket) :=
  match entries with
  | [] => Ok durations
  | e :: rest =>
      match leave_time e with
      | Some lt =>
          if bool_decide (meeting_id e = m) && truthy (join_time e) && truthy lt
          then
            duration ← calculate_duration (join_time e) lt;
            accumulate m rest (add_session e duration durations)
          else accumulate m rest durations
      | None => accumulate m rest durations
      end
  end.

Definition calculate_durations (m : string) (s : store) : result (gmap string bucket) :=
  accumulate m s ∅.

Definition report (m : string) (s : store) : result report_response :=
  durations ← calculate_durations m s;
  Ok {| report_meeting_id := m; attendance := durations;
        total_participants := size durations |}.

End Engine.

(* ===================================================================== *)
(** * Specification-level notions *)
(* ===================================================================== *)

(** The specification's wording of the normalisation: a trailing ["Z"]
    becomes an explicit UTC offset, nothing else changes. *)
Fixpoint normalize_trailing_Z (s : string) : string :=
  match s with
  | EmptyString => EmptyString
  | String c EmptyString => if Ascii.eqb c "Z" then "+00:00" else s
  | String c s' => String c (normalize_trailing_Z s')
  end.

(** An aware datetime carries a UTC offset. *)
Definition aware (d : datetime) : bool :=
  match tzinfo d with Some _ => true | None => false end.

(** The point in time a datetime denotes, in microseconds since the
    start of day 0: on the UTC time line for an aware value, on the
    local wall clock for a naive one. *)
Definition instant (d : datetime) : Z :=
  (toordinal d * 86400 + hour d * 3600 + minute d * 60 + second d) * 1000000
  + microsecond d - default 0 (tzinfo d).

(** A span of microseconds as float minutes: seconds first, then minutes,
    each division rounded to nearest. *)
Definition minutes_of_micros (us : Z) : float :=
  fdiv (int_truediv us 1000000) (float_of_Z 60).

(** The operations that change the store one entry at a time. *)
Inductive op :=
| Join (now m u name jt : string)
| Leave (m u lt : string).

Definition run_op (parse : string → option datetime) (o : op) (s : store) : store :=
  match o with
  | Join now m u name jt => log_join now m u name jt s
  | Leave m u lt => (log_leave parse m u lt s).1
  end.

Definition run_ops (parse : string → option datetime) (ops : list op) (s : store) : store :=
  foldl (λ s o, run_op parse o s) s ops.

(** The completed sessions of one user in one meeting, oldest first. *)
Definition user_sessions (m u : string) (s : store) : list entry :=
  filter (λ e, qualifies m e = true ∧ user_id e = u) s.

Section EngineSpec.
Variable fromisoformat : string → option datetime.

(** The duration of a completed entry. *)
Definition entry_duration (e : entry) : result float :=
  match leave_time e with
  | Some lt => calculate_duration fromisoformat (join_time e) lt
  | None => Ok fzero
  end.

(** Left-to-right float sum of the durations of a list of entries. *)
Fixpoint sum_durations (es : list entry) (acc : float) : result float :=
  match es with
  | [] => Ok acc
  | e :: es => d ← entry_duration e; sum_durations es (fadd acc d)
  end.

End EngineSpec.

(** A string whose only ["Z"], if any, is its last character. *)
Fixpoint no_inner_Z (s : string) : bool :=
  match s with
  | EmptyString => true
  | String c EmptyString => true
  | String c s' => negb (Ascii.eqb c "Z") && no_inner_Z s'
  end.

(** The sessions that carry the flag ["left"], for one user and meeting. *)
Definition closed_sessions (m u : string) (s : store) : list entry :=
  filter (λ e, event e = "left" ∧ meeting_id e = m ∧ user_id e = u) s.

(** The caller's side of the contract: an event without its timestamp
    is dropped before it reaches [log_join] or [log_leave]. *)
Definition timed (o : op) : Prop :=
  match o with
  | Join _ _ _ _ jt => jt ≠ EmptyString
  | Leave _ _ lt => lt ≠ EmptyString
  end.

(** The shape of an entry written by [log_join] and possibly closed by
    [log_leave], the timestamps being non-empty. *)
Definition well_formed (e : entry) : Prop :=
  join_time e ≠ EmptyString ∧
  ((event e = "joined" ∧ leave_time e = None) ∨
   (event e = "left" ∧ ∃ lt, leave_time e = Some lt ∧ lt ≠ EmptyString)).

(* ===================================================================== *)
(** * The webhook endpoint *)
(* ===================================================================== *)

(** The constant [ZOOM_VERIFICATION_TOKEN]. *)
Definition ZOOM_VERIFICATION_TOKEN : string := "V4LV-kEORHuMQpSXHn6qvQ".

(** A decoded JSON body: the Python values [request.json()] can yield. *)
#[warnings="-register-all"] Inductive pyval :=
| PNone
| PBool (b : bool)
| PInt (z : Z)
| PFloat (f : float)
| PStr (s : string)
| PList (l : list pyval)
| PDict (items : list (string * pyval)).

(** Python truthiness. *)
Definition py_truthy (v : pyval) : bool :=
  match v with
  | PNone => false
  | PBool b => b
  | PInt z => negb (z =? 0)
  | PFloat (S754_zero _) => false
  | PFloat _ => true
  | PStr s => truthy s
  | PList l => match l with [] => false | _ => true end
  | PDict items => match items with [] => false | _ => true end
  end.

(** [a or b]. *)
Definition py_or (a b : pyval) : pyval := if py_truthy a then a else b.

(** [v == "text"] for a string literal. *)
Definition py_is (v : pyval) (text : string) : bool :=
  match v with
  | PStr s => bool_decide (s = text)
  | _ => false
  end.

(** The value stored under a key of a dictionary. *)
Fixpoint items_get (key : string) (items : list (string * pyval)) : option pyval :=
  match items with
  | [] => None
  | (k, v) :: rest => if bool_decide (k = key) then Some v else items_get key rest
  end.

(** What is raised inside the handler: a built-in exception, or the
    [HTTPException] of FastAPI with its status code. *)
Inductive raised :=
| builtin (e : exn)
| http_exception (status_code : Z).

(** A step of the handler: a value, an exception, or a value that is not a
    string on its way into the store.  The entries of the store hold
    strings, as the signatures of [log_join] and [log_leave] have it; a
    request that would store a number, a list or a dictionary is outside
    the embedding and is marked [Untyped] rather than guessed at. *)
Inductive step (A : Type) :=
| Val (a : A)
| Exc (e : raised)
| Untyped.
Arguments Val {A} a.
Arguments Exc {A} e.
Arguments Untyped {A}.

#[global] Instance step_bind : MBind step := fun A B k r =>
  match r with
  | Val a => k a
  | Exc e => Exc e
  | Untyped => Untyped
  end.

(** [v.get(key, default)]: only a dictionary has [get]. *)
Definition py_get (v : pyval) (key : string) (default : pyval) : step pyval :=
  match v with
  | PDict items => Val (from_option id default (items_get key items))
  | _ => Exc (builtin AttributeError)
  end.

(** A value that must be a string to enter the store. *)
Definition typed (v : pyval) : step string :=
  match v with
  | PStr s => Val s
  | _ => Untyped
  end.

(** The two dictionaries the handler returns. *)
Inductive response :=
| challenge_response (plainToken encryptedToken : string)
| event_response (event : pyval).

(** What the client gets: the returned dictionary, or an HTTP error. *)
Inductive http :=
| Returned (r : response)
| HTTPError (status_code : Z).

Section Webhook.

(** [str(x)] on a float, a list or a dictionary, left to the library. *)
Variable repr_compound : pyval → string.

(** [hmac.new(key, msg, hashlib.sha256).hexdigest()]. *)
Variable hmac_sha256_hex : string → string → string.

Variable fromisoformat : string → option datetime.

(** [str(x)]. *)
Definition py_str (v : pyval) : string :=
  match v with
  | PNone => "None"
  | PBool true => "True"
  | PBool false => "False"
  | PInt z => pretty z
  | PStr s => s
  | _ => repr_compound v
  end.

Definition hash_token (token : string) : string :=
  hmac_sha256_hex ZOOM_VERIFICATION_TOKEN token.

(** The answer to the URL-validation challenge.  A truthy token that is
    not a string has no [encode]. *)
Definition url_validation (body : pyval) : step response :=
  payload ← py_get body "payload" (PDict []);
  plain_token ← py_get payload "plainToken" PNone;
  if negb (py_truthy plain_token) then Exc (http_exception 400)
  else match plain_token with
       | PStr t => Val (challenge_response t (hash_token t))
       | _ => Exc (builtin AttributeError)
       end.

(** The fields read from the payload of a participant event: meeting id,
    user id, user name and the participant dictionary. *)
Definition read_participant (body : pyval) : step (string * pyval * pyval * pyval) :=
  outer ← py_get body "payload" (PDict []);
  payload ← py_get outer "object" (PDict []);
  if negb (py_truthy payload) then Exc (http_exception 400) else
  meeting ← py_get payload "id" (PStr "unknown");
  participant ← py_get payload "participant" (PDict []);
  by_user_id ← py_get participant "user_id" PNone;
  by_id ← py_get participant "id" PNone;
  user_name ← py_get participant "user_name" (PStr "Unknown User");
  Val (py_str meeting, py_or (py_or by_user_id by_id) (PStr "unknown"),
       user_name, participant).

(** The [try] block of [zoom_webhook]: the store it leaves, and what it
    returns or raises. *)
Definition webhook_try (now : string) (body : pyval) (s : store) : store * step response :=
  match py_get body "event" PNone with
  | Val event =>
      if py_is event "endpoint.url_validation" then (s, url_validation body)
      else
        match read_participant body with
        | Val (meeting, user, name, participant) =>
            if py_is event "meeting.participant_joined" then
              match py_get participant "join_time" PNone with
              | Val join_time =>
                  if py_truthy join_time then
                    match typed user, typed name, typed join_time with
                    | Val u, Val n, Val jt =>
                        (log_join now meeting u n jt s, Val (event_response event))
                    | _, _, _ => (s, Untyped)
                    end
                  else (s, Val (event_response event))
              | Exc e => (s, Exc e)
              | Untyped => (s, Untyped)
              end
            else if py_is event "meeting.participant_left" then
              match py_get participant "leave_time" PNone with
              | Val leave_time =>
                  if py_truthy leave_time then
                    match typed user, typed leave_time with
                    | Val u, Val lt =>
                        let '(s', r) := log_leave fromisoformat meeting u lt s in
                        (s', match r with
                             | Ok _ => Val (event_response event)
                             | Raise e => Exc (builtin e)
                             end)
                    | _, _ => (s, Untyped)
                    end
                  else (s, Val (event_response event))
              | Exc e => (s, Exc e)
              | Untyped => (s, Untyped)
              end
            else (s, Val (event_response event))
        | Exc e => (s, Exc e)
        | Untyped => (s, Untyped)
        end
  | Exc e => (s, Exc e)
  | Untyped => (s, Untyped)
  end.

(** [zoom_webhook]: the [try] block, and [except Exception] turning
    whatever was raised into [HTTPException(status_code=500)] (its detail
    text is not modelled).  [body] is [None] when [request.json()] itself
    raises.  The result is [None] for a request outside the embedding,
    that is, one that hands a user id, user name or timestamp that is not
    a string to [log_join] or [log_leave]: the code serves such a request
    too, and may store the value, which an [entry] cannot hold.  Results
    about [zoom_webhook] and [serve] therefore speak of requests for
    which they are [Some]. *)
Definition zoom_webhook (now : string) (body : option pyval) (s : store) : option (store * http) :=
  match body with
  | None => Some (s, HTTPError 500)
  | Some body =>
      match webhook_try now body s with
      | (s', Val r) => Some (s', Returned r)
      | (s', Exc _) => Some (s', HTTPError 500)
      | (_, Untyped) => None
      end
  end.

(** A sequence of requests, each with the clock reading at its arrival:
    the store they leave, the replies being dropped. *)
Fixpoint serve (requests : list (string * option pyval)) (s : store) : option store :=
  match requests with
  | [] => Some s
  | (now, body) :: rest =>
      match zoom_webhook now body s with
      | Some (s', _) => serve rest s'
      | None => None
      end
  end.

End Webhook.

(** The body of a participant event as Zoom sends it. *)
Definition participant_event (event : string) (meeting : pyval)
    (participant : list (string * pyval)) : pyval :=
  PDict [("event", PStr event);
         ("payload", PDict [("object",
            PDict [("id", meeting); ("participant", PDict participant)])])].

(** The number of entries open for a pair. *)
Definition open_count (m u : string) (s : store) : nat :=
  length (filter (λ e, is_open_for m u e = true) s).

Definition is_join (o : op) : bool :=
  match o with
  | Join _ _ _ _ _ => true
  | Leave _ _ _ => false
  end.

(** The number of joins in a sequence of operations. *)
Definition joins (ops : list op) : nat :=
  length (filter (λ o, is_join o = true) ops).

(** The flag and the leave time agree. *)
Definition flag_consistent (e : entry) : Prop :=
  (event e = "joined" ∧ leave_time e = None) ∨
  (event e = "left" ∧ leave_time e ≠ None).

(** What the webhook guarantees of an entry it stored. *)
Definition from_webhook (e : entry) : Prop :=
  well_formed e ∧ user_id e ≠ EmptyString.

(* ===================================================================== *)
(** * Sample data *)
(* ===================================================================== *)

Definition alice_open : entry :=
  {| event := "joined"; meeting_id := "M1"; user_id := "U1";
     user_name := "Alice"; join_time := "2024-01-01T09:00:00Z";
     leave_time := None; timestamp := "t0" |}.

Definition alice_closed : entry := close_entry "2024-01-01T09:45:00Z" alice_open.

Definition bob_open : entry :=
  {| event := "joined"; meeting_id := "M1"; user_id := "U2";
     user_name := "Bob"; join_time := "2024-01-01T09:05:00Z";
     leave_time := None; timestamp := "t1" |}.

Definition alice_rejoined : entry :=
  {| event := "joined"; meeting_id := "M1"; user_id := "U1";
     user_name := "Alice"; join_time := "2024-01-01T09:30:00Z";
     leave_time := None; timestamp := "t2" |}.

(** Two sessions of one user in one meeting, of 10 and of 20 minutes,
    logged through the matcher. *)
Definition two_sessions : store :=
  run_ops iso_parse
    [ Join "t0" "M1" "U1" "Alice" "2024-01-01T09:00:00Z";
      Leave "M1" "U1" "2024-01-01T09:10:00Z";
      Join "t1" "M1" "U1" "Alice" "2024-01-01T10:00:00Z";
      Leave "M1" "U1" "2024-01-01T10:20:00Z" ] [].

(** Stand-ins for [str] on compound values and for HMAC-SHA256, to
    instantiate results that hold whatever these two library functions
    compute. *)
Definition sample_repr (v : pyval) : string := "<compound>".
Definition sample_hmac (key msg : string) : string := key +:+ ":" +:+ msg.

(** Two sessions of one user who changed display name in between, and
    one session of another user in another meeting. *)
Definition renamed_sessions : store :=
  run_ops iso_parse
    [ Join "t0" "M1" "U1" "Alice" "2024-01-01T09:00:00Z";
      Leave "M1" "U1" "2024-01-01T09:10:00Z";
      Join "t1" "M2" "U2" "Bob" "2024-01-01T09:30:00Z";
      Join "t2" "M1" "U1" "Alicia" "2024-01-01T10:00:00Z";
      Leave "M2" "U2" "2024-01-01T10:10:00Z";
      Leave "M1" "U1" "2024-01-01T10:20:00Z" ] [].

(** A session whose join time is aware and whose leave time is naive. *)
Definition mixed_session : store :=
  run_ops iso_parse
    [ Join "t0" "M1" "U1" "Alice" "2024-01-01T09:00:00Z";
      Leave "M1" "U1" "2024-01-01T09:10:00" ] [].

(* ===================================================================== *)
(** * The session matcher *)
(* ===================================================================== *)

Section Matcher.
Variable fromisoformat : string → option datetime.

Lemma find_open_snoc m u (s : store) x :
  find_open m u (reverse (s ++ [x])) =
  if is_open_for m u x then Some (length s, x) else find_open m u (reverse s).
Proof. rewrite reverse_snoc. simpl. by rewrite length_reverse. Qed.

(** A hit of the reverse scan is the open entry of the pair with the
    largest index. *)
Lemma find_open_Some m u (s : store) i e :
  find_open m u (reverse s) = Some (i, e) →
  s !! i = Some e ∧ is_open_for m u e = true ∧
  ∀ k e', (i < k)%nat → s !! k = Some e' → is_open_for m u e' = false.
Proof.
  induction s as [|x s IH] using rev_ind; [done|].
  rewrite find_open_snoc. destruct (is_open_for m u x) eqn:Hx.
  - intros [= <- <-]. split_and!.
    + by rewrite lookup_app_r, Nat.sub_diag.
    + done.
    + intros k e' Hk He'. apply lookup_lt_Some in He'.
      rewrite length_app in He'. simpl in He'. lia.
  - intros H. destruct (IH H) as (Hi & He & Hlast).
    pose proof (lookup_lt_Some _ _ _ Hi) as Hlt. split_and!.
    + by rewrite lookup_app_l.
    + done.
    + intros k e' Hk He'.
      destruct (decide (k < length s)%nat) as [Hks|Hks].
      * rewrite lookup_app_l in He' by done. eauto.
      * rewrite lookup_app_r in He' by lia.
        destruct (k - length s)%nat; simpl in He'; [congruence|done].
Qed.

(** The scan misses exactly when no entry is open for the pair. *)
Lemma find_open_None m u (s : store) :
  find_open m u (reverse s) = None ↔ ∀ e, e ∈ s → is_open_for m u e = false.
Proof.
  induction s as [|x s IH] using rev_ind.
  - split; [intros _ e He; by apply elem_of_nil in He | done].
  - rewrite find_open_snoc. destruct (is_open_for m u x) eqn:Hx.
    + split; [done|]. intros H. rewrite H in Hx; [done|].
      apply elem_of_app. right. by apply list_elem_of_singleton.
    + rewrite IH. split.
      * intros H e [He|He%list_elem_of_singleton]%elem_of_app; subst; eauto.
      * intros H e He. apply H, elem_of_app. by left.
Qed.

(** The store after a leave that found its entry. *)
Lemma log_leave_store m u lt (s : store) i e :
  find_open m u (reverse s) = Some (i, e) →
  (log_leave fromisoformat m u lt s).1 = <[i := close_entry lt e]> s.
Proof. intros H. unfold log_leave. by rewrite H. Qed.

(** An entry is untouched by a leave unless it is open for that pair. *)
Lemma log_leave_keeps m u lt (s : store) k e :
  s !! k = Some e → is_open_for m u e = false →
  (log_leave fromisoformat m u lt s).1 !! k = Some e.
Proof.
  intros Hk He. unfold log_leave.
  destruct (find_open m u (reverse s)) as [[i e']|] eqn:Hf; [|done].
  apply find_open_Some in Hf as (Hi & He' & _). simpl.
  destruct (decide (i = k)) as [->|Hne]; [congruence|].
  by rewrite list_lookup_insert_ne.
Qed.

Lemma log_join_keeps now m u name jt (s : store) k e :
  s !! k = Some e → log_join now m u name jt s !! k = Some e.
Proof. intros Hk. unfold log_join. by apply lookup_app_l_Some. Qed.

(** An entry whose [leave_time] is set is not open for any pair. *)
Lemma left_not_open m u e : leave_time e ≠ None → is_open_for m u e = false.
Proof.
  intros H. unfold is_open_for. rewrite (bool_decide_eq_false_2 _ H).
  by rewrite andb_false_r.
Qed.

End Matcher.

(** C7 (join creates an open record).  [log_join] appends exactly one
    entry at the end of the store: it carries the given meeting id, user
    id, user name and join time, the flag ["joined"] and no leave time;
    the length grows by one and every entry already stored keeps its
    position and its content. *)
Theorem log_join_appends_open_entry now m u name jt (s : store) :
  let s' := log_join now m u name jt s in
  let new := {| event := "joined"; meeting_id := m; user_id := u;
                user_name := name; join_time := jt; leave_time := None;
                timestamp := now |} in
  s' = s ++ [new] ∧
  length s' = S (length s) ∧
  s' !! length s = Some new ∧
  (∀ k e, s !! k = Some e → s' !! k = Some e) ∧
  (∀ k, (k < length s)%nat → s' !! k = s !! k) ∧
  is_open_for m u new = true.
Proof.
  intros s' new. subst s'. unfold log_join. fold new. split_and!.
  - done.
  - rewrite length_app. simpl. lia.
  - by rewrite lookup_app_r, Nat.sub_diag.
  - intros k e Hk. by apply lookup_app_l_Some.
  - intros k Hk. by apply lookup_app_l.
  - unfold is_open_for, new. simpl. by rewrite !bool_decide_eq_true_2.
Qed.

(** C1, as stated, fails: [log_leave] returns no outcome.  With no open
    entry for Alice the call returns [None]; with one, which it closes,
    it returns [None] as well, so the value returned does not tell an
    unmatched leave from a matched one. *)
Lemma log_leave_returns_None_either_way :
  (∀ e, e ∈ [alice_closed; bob_open] → is_open_for "M1" "U1" e = false) ∧
  log_leave_value iso_parse "M1" "U1" "2024-01-01T10:00:00Z" [alice_closed; bob_open]
    = Ok () ∧
  is_open_for "M1" "U1" alice_open = true ∧
  (log_leave iso_parse "M1" "U1" "2024-01-01T10:00:00Z" [alice_open]).1
    = [close_entry "2024-01-01T10:00:00Z" alice_open] ∧
  log_leave_value iso_parse "M1" "U1" "2024-01-01T10:00:00Z" [alice_open]
    = Ok ().
Proof.
  split_and!; try by vm_compute.
  apply Forall_forall. repeat constructor.
Qed.

(** C1, amended (an unmatched leave is a no-op).  When no entry of the
    store is open for the pair (meeting id, user id), [log_leave] hands
    the store back unchanged, entry for entry, prints the
    no-matching-join warning and returns [None]: the outcome is told by
    the printed line, not by the value returned. *)
Theorem log_leave_unmatched_is_noop parse m u lt (s : store) :
  (∀ e, e ∈ s → is_open_for m u e = false) →
  log_leave parse m u lt s = (s, Ok unmatched) ∧
  log_leave_value parse m u lt s = Ok ().
Proof.
  intros H. apply find_open_None in H. unfold log_leave_value, log_leave.
  by rewrite H.
Qed.

(** A leave for Alice when her only entry is closed and Bob's is open. *)
Lemma log_leave_unmatched_is_noop_witness :
  log_leave iso_parse "M1" "U1" "2024-01-01T10:00:00Z" [alice_closed; bob_open]
  = ([alice_closed; bob_open], Ok unmatched) ∧
  log_leave_value iso_parse "M1" "U1" "2024-01-01T10:00:00Z" [alice_closed; bob_open]
  = Ok ().
Proof.
  apply log_leave_unmatched_is_noop.
  apply Forall_forall. repeat constructor.
Defined.

(** C3 (a leave closes the most recent open entry).  If the entries at
    indices [i < j] are both open for the pair and no later entry is, the
    leave rewrites the entry at [j] into its closed form, leave time set
    and flag ["left"], leaves the one at [i] as it was, still open, and
    reports a match with the duration of the entry at [j]. *)
Theorem log_leave_closes_later_join parse m u lt (s : store) i j ei ej :
  (i < j)%nat →
  s !! i = Some ei → is_open_for m u ei = true →
  s !! j = Some ej → is_open_for m u ej = true →
  (∀ k e, (j < k)%nat → s !! k = Some e → is_open_for m u e = false) →
  let s' := (log_leave parse m u lt s).1 in
  s' = <[j := close_entry lt ej]> s ∧
  s' !! j = Some (close_entry lt ej) ∧
  leave_time (close_entry lt ej) = Some lt ∧
  event (close_entry lt ej) = "left" ∧
  s' !! i = Some ei ∧
  (log_leave parse m u lt s).2
    = (d ← calculate_duration parse (join_time ej) lt; Ok (matched d)).
Proof.
  intros Hij Hi Hoi Hj Hoj Hlast s'.
  assert (find_open m u (reverse s) = Some (j, ej)) as Hf.
  { destruct (find_open m u (reverse s)) as [[k e]|] eqn:Hf.
    - apply find_open_Some in Hf as (Hk & Hok & Hafter).
      destruct (Nat.lt_trichotomy k j) as [Hlt|[->|Hgt]].
      + rewrite (Hafter j ej Hlt Hj) in Hoj. done.
      + congruence.
      + rewrite (Hlast k e Hgt Hk) in Hok. done.
    - rewrite (proj1 (find_open_None m u s) Hf ej) in Hoj; [done|].
      by eapply list_elem_of_lookup_2. }
  assert (s' = <[j := close_entry lt ej]> s) as Hs'.
  { subst s'. by apply log_leave_store. }
  pose proof (lookup_lt_Some _ _ _ Hj) as Hlen.
  split_and!; try done.
  - rewrite Hs'. by apply list_lookup_insert_eq.
  - rewrite Hs'. rewrite list_lookup_insert_ne by lia. done.
  - unfold log_leave. by rewrite Hf.
Qed.

(** Alice joined twice, Bob in between: the leave closes her second entry. *)
Lemma log_leave_closes_later_join_witness :
  (log_leave iso_parse "M1" "U1" "2024-01-01T10:00:00Z"
     [alice_open; bob_open; alice_rejoined]).1
  = [alice_open; bob_open; close_entry "2024-01-01T10:00:00Z" alice_rejoined].
Proof.
  apply (log_leave_closes_later_join iso_parse "M1" "U1" "2024-01-01T10:00:00Z"
           [alice_open; bob_open; alice_rejoined] 0 2 alice_open alice_rejoined);
    try reflexivity.
  - lia.
  - intros k e Hk He. apply lookup_lt_Some in He. simpl in He. lia.
Defined.

(** C10 (frame of a matched leave).  When some entry is open for the
    pair, [log_leave] changes one entry only, in place: the store keeps
    its length and order, every other index holds what it held, and the
    changed entry differs from the old one in [leave_time], now the given
    time, and in [event], now ["left"], its meeting id, user id, user name,
    join time and timestamp being what they were. *)
Theorem log_leave_mutates_one_entry parse m u lt (s : store) :
  (∃ e, e ∈ s ∧ is_open_for m u e = true) →
  let s' := (log_leave parse m u lt s).1 in
  ∃ i e e',
    s !! i = Some e ∧ is_open_for m u e = true ∧
    s' = <[i := e']> s ∧
    length s' = length s ∧
    (∀ k, k ≠ i → s' !! k = s !! k) ∧
    s' !! i = Some e' ∧ e' ≠ e ∧
    leave_time e' = Some lt ∧ event e' = "left" ∧
    meeting_id e' = meeting_id e ∧ user_id e' = user_id e ∧
    user_name e' = user_name e ∧ join_time e' = join_time e ∧
    timestamp e' = timestamp e.
Proof.
  intros (e0 & Hin & Hopen) s'.
  destruct (find_open m u (reverse s)) as [[i e]|] eqn:Hf.
  - pose proof (log_leave_store parse m u lt s i e Hf) as Hs'. fold s' in Hs'.
    apply find_open_Some in Hf as (Hi & Hoe & _).
    pose proof (lookup_lt_Some _ _ _ Hi) as Hlen.
    exists i, e, (close_entry lt e). rewrite Hs'. split_and!; try done.
    + apply length_insert.
    + intros k Hk. by apply list_lookup_insert_ne.
    + by apply list_lookup_insert_eq.
    + intros Heq. apply (f_equal event) in Heq. simpl in Heq.
      unfold is_open_for in Hoe. rewrite !andb_true_iff in Hoe.
      destruct Hoe as [[[Hev%bool_decide_eq_true _] _] _]. congruence.
  - rewrite (proj1 (find_open_None m u s) Hf e0 Hin) in Hopen. done.
Qed.

(** Bob leaves a store that holds Alice's open entry and his. *)
Lemma log_leave_mutates_one_entry_witness :
  ∃ i e e',
    [alice_open; bob_open] !! i = Some e ∧ is_open_for "M1" "U2" e = true ∧
    (log_leave iso_parse "M1" "U2" "2024-01-01T10:00:00Z" [alice_open; bob_open]).1
      = <[i := e']> [alice_open; bob_open] ∧
    length (log_leave iso_parse "M1" "U2" "2024-01-01T10:00:00Z" [alice_open; bob_open]).1
      = length [alice_open; bob_open] ∧
    (∀ k, k ≠ i →
       (log_leave iso_parse "M1" "U2" "2024-01-01T10:00:00Z" [alice_open; bob_open]).1 !! k
       = [alice_open; bob_open] !! k) ∧
    (log_leave iso_parse "M1" "U2" "2024-01-01T10:00:00Z" [alice_open; bob_open]).1 !! i
      = Some e' ∧ e' ≠ e ∧
    leave_time e' = Some "2024-01-01T10:00:00Z" ∧ event e' = "left" ∧
    meeting_id e' = meeting_id e ∧ user_id e' = user_id e ∧
    user_name e' = user_name e ∧ join_time e' = join_time e ∧
    timestamp e' = timestamp e.
Proof.
  apply (log_leave_mutates_one_entry iso_parse "M1" "U2" "2024-01-01T10:00:00Z"
           [alice_open; bob_open]).
  exists bob_open. split; [|reflexivity].
  apply list_elem_of_lookup. by exists 1%nat.
Defined.

(** C4 (a closed entry is final).  Once an entry has its [leave_time]
    set, no sequence of joins and leaves changes it or moves it: joins
    only append, and a leave never selects an entry with a leave time. *)
Theorem leave_time_once_set_is_final parse (ops : list op) (s : store) i e :
  s !! i = Some e → leave_time e ≠ None →
  run_ops parse ops s !! i = Some e.
Proof.
  revert s. induction ops as [|o ops IH]; intros s Hi Hset; [done|].
  unfold run_ops. simpl. apply IH; [|done].
  destruct o as [now m u name jt|m u lt]; simpl.
  - by apply log_join_keeps.
  - apply log_leave_keeps; [done|]. by apply left_not_open.
Qed.

(** Alice's closed entry survives a further leave, join and leave of hers. *)
Lemma leave_time_once_set_is_final_witness :
  run_ops iso_parse
    [ Leave "M1" "U1" "2024-01-01T10:00:00Z";
      Join "t3" "M1" "U1" "Alice" "2024-01-01T10:05:00Z";
      Leave "M1" "U1" "2024-01-01T10:15:00Z" ]
    [alice_closed; bob_open] !! 0%nat
  = Some alice_closed.
Proof.
  apply leave_time_once_set_is_final; [reflexivity|discriminate].
Defined.

(* ===================================================================== *)
(** * The duration calculator *)
(* ===================================================================== *)

(** ** The sign of a rounded quotient *)

Lemma shr_1_nonneg mrs : 0 ≤ shr_m mrs → 0 ≤ shr_m (shr_1 mrs).
Proof. destruct mrs as [[|[p|p|]|p] r t]; simpl; lia. Qed.

Lemma iter_shr_1_nonneg p mrs :
  0 ≤ shr_m mrs → 0 ≤ shr_m (SpecFloat.iter_pos shr_1 p mrs).
Proof.
  revert mrs. induction p as [p IH|p IH|]; intros mrs H; simpl.
  - by apply IH, IH, shr_1_nonneg.
  - by apply IH, IH.
  - by apply shr_1_nonneg.
Qed.

Lemma shr_fexp_nonneg prec emax m e l :
  0 ≤ m → 0 ≤ shr_m (shr_fexp prec emax m e l).1.
Proof.
  intros H. unfold shr_fexp, shr.
  assert (0 ≤ shr_m (shr_record_of_loc m l)) by (by destruct l as [|[]]).
  destruct (fexp prec emax (Zdigits2 m + e) - e); simpl; [done| |done].
  by apply iter_shr_1_nonneg.
Qed.

Lemma round_nearest_even_nonneg m l : 0 ≤ m → 0 ≤ round_nearest_even m l.
Proof.
  intros H. destruct l as [|[]]; simpl; try lia. destruct (Z.even m); lia.
Qed.

(** Rounding a non-negative mantissa keeps the sign it is given, and
    does not produce a NaN. *)
Lemma binary_round_aux_sign prec emax sx mx ex lx :
  0 ≤ mx → fsign (binary_round_aux prec emax sx mx ex lx) = Some sx.
Proof.
  intros H. unfold binary_round_aux.
  pose proof (shr_fexp_nonneg prec emax mx ex lx H) as H1.
  destruct (shr_fexp prec emax mx ex lx) as [mrs' e']. simpl in H1.
  pose proof (shr_fexp_nonneg prec emax _ e' loc_Exact
    (round_nearest_even_nonneg _ (loc_of_shr_record mrs') H1)) as H2.
  destruct (shr_fexp prec emax _ e' loc_Exact) as [mrs'' e'']. simpl in H2.
  destruct (shr_m mrs'') as [|p|p]; [done| |lia].
  by destruct (e'' <=? emax - prec).
Qed.

Lemma fdiv_finite_sign sx mx ex sy my ey :
  fsign (fdiv (S754_finite sx mx ex) (S754_finite sy my ey)) = Some (xorb sx sy).
Proof.
  unfold fdiv, SFdiv, SFdiv_core_binary.
  match goal with |- context [Z.div_eucl ?a ?b] =>
    pose proof (Z.div_eucl_eq a b ltac:(done)) as Heq;
    pose proof (Z.mod_pos_bound a b ltac:(done)) as Hmod;
    assert (0 ≤ a) as Ha; [|unfold Z.modulo in Hmod;
    destruct (Z.div_eucl a b) as [q r] eqn:Hqr] end.
  { match goal with |- 0 ≤ match ?x with _ => _ end => destruct x eqn:Hs end;
      [done| |done]. rewrite Z.shiftl_mul_pow2 by done. lia. }
  apply binary_round_aux_sign. nia.
Qed.

(** Dividing by a positive finite float keeps the sign bit. *)
Lemma fdiv_positive_sign x b my ey :
  fsign x = Some b → fsign (fdiv x (S754_finite false my ey)) = Some b.
Proof.
  destruct x as [s|s| |s m e]; intros [= <-].
  - simpl. by rewrite xorb_false_r.
  - simpl. by rewrite xorb_false_r.
  - rewrite fdiv_finite_sign. by rewrite xorb_false_r.
Qed.

(** The float minutes carry the sign of the span: negative spans are
    not clamped. *)
Lemma minutes_of_micros_sign us :
  fsign (minutes_of_micros us) = Some (us <? 0).
Proof.
  unfold minutes_of_micros.
  change (float_of_Z 60) with (S754_finite false 8444249301319680 (-47)).
  apply fdiv_positive_sign. unfold int_truediv.
  destruct us as [|p|p]; [done| |]; unfold exact_of_Z;
    by rewrite fdiv_finite_sign.
Qed.

(** A span of [n] whole minutes, up to a day either way, comes out as
    exactly [float(n)]: both divisions are exact there. *)
Lemma minutes_of_micros_whole n :
  -1440 ≤ n ≤ 1440 → minutes_of_micros (n * 60000000) = float_of_Z n.
Proof.
  intros Hn.
  assert (Forall (λ k : nat, minutes_of_micros ((Z.of_nat k - 1440) * 60000000)
                             = float_of_Z (Z.of_nat k - 1440)) (seq 0 2881)) as H.
  { apply (bool_decide_unpack _). by vm_compute. }
  rewrite Forall_forall in H.
  specialize (H (Z.to_nat (n + 1440))).
  replace (Z.of_nat (Z.to_nat (n + 1440)) - 1440) with n in H by lia.
  apply H, elem_of_seq. lia.
Qed.

Section Duration.
Variable fromisoformat : string → option datetime.

(** What [l - j] yields in terms of the instants denoted. *)
Lemma datetime_sub_instant l j :
  aware l = aware j → datetime_sub l j = Ok (instant l - instant j).
Proof.
  unfold aware, datetime_sub, instant, clock_seconds.
  destruct (tzinfo l), (tzinfo j); simpl; intros H; try done; f_equal; lia.
Qed.

Lemma datetime_sub_mixed l j :
  aware l ≠ aware j → datetime_sub l j = Raise TypeError.
Proof.
  unfold aware, datetime_sub. by destruct (tzinfo l), (tzinfo j).
Qed.

Lemma calculate_duration_unparsed jt lt :
  fromisoformat (replace_Z jt) = None ∨ fromisoformat (replace_Z lt) = None →
  calculate_duration fromisoformat jt lt = Ok fzero.
Proof.
  unfold calculate_duration, parse_timestamp.
  intros [H|H]; rewrite H; [done|].
  by destruct (fromisoformat (replace_Z jt)).
Qed.

Lemma calculate_duration_parsed jt lt dj dl :
  fromisoformat (replace_Z jt) = Some dj →
  fromisoformat (replace_Z lt) = Some dl →
  calculate_duration fromisoformat jt lt =
  if bool_decide (aware dl = aware dj)
  then Ok (minutes_of_micros (instant dl - instant dj))
  else Raise TypeError.
Proof.
  intros Hj Hl. unfold calculate_duration, parse_timestamp.
  rewrite Hj, Hl. simpl. case_bool_decide as Ha.
  - by rewrite datetime_sub_instant.
  - by rewrite datetime_sub_mixed.
Qed.

End Duration.

Lemma replace_Z_trailing s :
  no_inner_Z s = true → replace_Z s = normalize_trailing_Z s.
Proof.
  induction s as [|c s IH]; [done|]. destruct s as [|c' s].
  - intros _. simpl. by destruct (Ascii.eqb c "Z").
  - intros [Hc Hs]%andb_true_iff.
    change (replace_Z (String c (String c' s))) with
      (if Ascii.eqb c "Z" then "+00:00" +:+ replace_Z (String c' s)
       else String c (replace_Z (String c' s))).
    change (normalize_trailing_Z (String c (String c' s))) with
      (String c (normalize_trailing_Z (String c' s))).
    rewrite <- IH by done. by destruct (Ascii.eqb c "Z").
Qed.

(** C8, as stated, fails: ["2024-01-01T10:00:00Z:30"] has no trailing
    ["Z"] and does not parse, yet [replace] turns its inner ["Z"] into the
    start of the offset [+00:00:30], and the call returns 30.5 minutes. *)
Lemma inner_Z_is_replaced_too :
  iso_parse (normalize_trailing_Z "2024-01-01T10:00:00Z:30") = None ∧
  calculate_duration iso_parse "2024-01-01T10:00:00Z:30" "2024-01-01T10:30:00Z"
    = Ok (fdiv (float_of_Z 61) (float_of_Z 2)) ∧
  calculate_duration iso_parse "2024-01-01T10:00:00Z:30" "2024-01-01T10:30:00Z"
    ≠ Ok fzero.
Proof. split_and!; [by vm_compute..|]. vm_compute. discriminate. Qed.

(** C8, amended (a malformed timestamp gives 0.0).  Whatever
    [fromisoformat] accepts: when one of the two strings, every ["Z"] in
    it replaced by ["+00:00"], is rejected, [calculate_duration] returns
    exactly [0.0] and raises nothing.  For strings with no ["Z"] before
    their last character that replacement is the normalisation of a
    trailing ["Z"].  In particular the call on ["not-a-time"] and
    ["2024-01-01T10:00:00Z"] returns [0.0]. *)
Theorem malformed_timestamp_gives_zero :
  (∀ parse jt lt,
     parse (replace_Z jt) = None ∨ parse (replace_Z lt) = None →
     calculate_duration parse jt lt = Ok fzero) ∧
  (∀ parse jt lt,
     no_inner_Z jt = true → no_inner_Z lt = true →
     parse (normalize_trailing_Z jt) = None ∨
     parse (normalize_trailing_Z lt) = None →
     calculate_duration parse jt lt = Ok fzero) ∧
  calculate_duration iso_parse "not-a-time" "2024-01-01T10:00:00Z" = Ok fzero.
Proof.
  split_and!.
  - intros parse jt lt. apply calculate_duration_unparsed.
  - intros parse jt lt Hj Hl H. apply calculate_duration_unparsed.
    by rewrite !replace_Z_trailing.
  - by vm_compute.
Qed.

(** Month 13 is rejected by the parser. *)
Lemma malformed_timestamp_gives_zero_witness :
  calculate_duration iso_parse "2024-13-01T10:00:00Z" "2024-01-01T10:00:00Z"
  = Ok fzero.
Proof.
  apply (proj1 malformed_timestamp_gives_zero). left. reflexivity.
Defined.

(** C9 (duration correctness) fails on the code.  A timestamp with a
    trailing ["Z"] is aware, one without is naive; both are well formed,
    and subtracting one from the other raises [TypeError], which the
    clause [except (ValueError, AttributeError)] lets through: the call
    raises where the claim promises the elapsed minutes. *)
Lemma naive_and_aware_raise :
  is_Some (iso_parse (normalize_trailing_Z "2024-01-01T10:00:00Z")) ∧
  is_Some (iso_parse (normalize_trailing_Z "2024-01-01T10:30:00")) ∧
  calculate_duration iso_parse "2024-01-01T10:00:00Z" "2024-01-01T10:30:00"
    = Raise TypeError.
Proof. split_and!; [by vm_compute; eexists..|by vm_compute]. Qed.

(** X21 (the duration of two timestamps of one kind).  Whatever
    [fromisoformat] accepts: when both strings, every ["Z"] replaced by
    ["+00:00"], parse and the two datetimes are both aware or both naive,
    [calculate_duration] returns the span from the join instant to the
    leave instant as float minutes, microseconds divided by [10**6] and
    then by [60]; its sign bit is set exactly when the leave precedes the
    join, so inverted timestamps give a negative value.  A span of [n]
    whole minutes within a day comes out as exactly [float(n)].  In
    particular 10:00:00Z to 10:30:00Z gives [30.0], and the inverted pair
    [-30.0]. *)
Theorem well_formed_timestamps_give_minutes :
  (∀ parse jt lt dj dl,
     parse (replace_Z jt) = Some dj → parse (replace_Z lt) = Some dl →
     aware dl = aware dj →
     calculate_duration parse jt lt
       = Ok (minutes_of_micros (instant dl - instant dj)) ∧
     fsign (minutes_of_micros (instant dl - instant dj))
       = Some (bool_decide (instant dl < instant dj)) ∧
     (∀ n, -1440 ≤ n ≤ 1440 → instant dl - instant dj = n * 60000000 →
           calculate_duration parse jt lt = Ok (float_of_Z n))) ∧
  calculate_duration iso_parse "2024-01-01T10:00:00Z" "2024-01-01T10:30:00Z"
    = Ok (float_of_Z 30) ∧
  calculate_duration iso_parse "2024-01-01T10:30:00Z" "2024-01-01T10:00:00Z"
    = Ok (float_of_Z (-30)).
Proof.
  split_and!.
  - intros parse jt lt dj dl Hj Hl Ha.
    assert (calculate_duration parse jt lt
            = Ok (minutes_of_micros (instant dl - instant dj))) as Hd.
    { rewrite (calculate_duration_parsed parse jt lt dj dl Hj Hl).
      by rewrite bool_decide_eq_true_2. }
    split_and!; [done| |].
    + rewrite minutes_of_micros_sign. f_equal.
      case_bool_decide; [apply Z.ltb_lt|apply Z.ltb_ge]; lia.
    + intros n Hn Hspan. rewrite Hd, Hspan.
      by rewrite minutes_of_micros_whole.
  - by vm_compute.
  - by vm_compute.
Qed.

(** A trailing ["Z"] and an explicit [+00:00] are both aware. *)
Lemma well_formed_timestamps_give_minutes_witness :
  calculate_duration iso_parse "2024-01-01T09:00:00Z" "2024-01-01T09:45:00+00:00"
  = Ok (float_of_Z 45).
Proof.
  refine (proj1 ((proj1 well_formed_timestamps_give_minutes) iso_parse
            "2024-01-01T09:00:00Z" "2024-01-01T09:45:00+00:00"
            (Build_datetime 2024 1 1 9 0 0 0 (Some 0))
            (Build_datetime 2024 1 1 9 45 0 0 (Some 0)) _ _ _));
    reflexivity.
Defined.

(* ===================================================================== *)
(** * The aggregator *)
(* ===================================================================== *)

Section Aggregator.
Variable fromisoformat : string → option datetime.

(** One turn of the loop, in terms of [qualifies] and [entry_duration]. *)
Lemma accumulate_cons m e rest (d : gmap string bucket) :
  accumulate fromisoformat m (e :: rest) d =
  if qualifies m e
  then duration ← entry_duration fromisoformat e;
       accumulate fromisoformat m rest (add_session e duration d)
  else accumulate fromisoformat m rest d.
Proof.
  simpl. unfold qualifies, completed, entry_duration.
  destruct (leave_time e) as [lt|].
  - by rewrite andb_assoc.
  - by rewrite !andb_false_r.
Qed.

Lemma add_session_lookup e dur (d : gmap string bucket) :
  add_session e dur d !! user_id e =
  Some match d !! user_id e with
       | Some b => {| bucket_user_name := bucket_user_name b;
                      total_minutes := fadd (total_minutes b) dur;
                      sessions := sessions b + 1 |}
       | None => {| bucket_user_name := user_name e;
                    total_minutes := fadd fzero dur;
                    sessions := 0 + 1 |}
       end.
Proof.
  unfold add_session. rewrite !lookup_alter_eq.
  destruct (d !! user_id e) as [b|] eqn:Hb.
  - by rewrite Hb.
  - by rewrite lookup_insert_eq.
Qed.

Lemma add_session_lookup_ne e dur (d : gmap string bucket) u :
  u ≠ user_id e → add_session e dur d !! u = d !! u.
Proof.
  intros Hne. unfold add_session. rewrite !lookup_alter_ne by done.
  destruct (d !! user_id e); [done|]. by rewrite lookup_insert_ne.
Qed.

Lemma user_sessions_cons m u e (s : store) :
  user_sessions m u (e :: s) =
  if qualifies m e && bool_decide (user_id e = u)
  then e :: user_sessions m u s else user_sessions m u s.
Proof.
  unfold user_sessions. destruct (qualifies m e) eqn:Hq; simpl.
  - case_bool_decide.
    + by rewrite filter_cons_True.
    + rewrite filter_cons_False; [done|]. by intros [_ ?].
  - rewrite filter_cons_False; [done|]. intros [? _]. congruence.
Qed.

(** The loop invariant: what the final dictionary holds for a user, given
    what the dictionary held for that user when the loop started. *)
Lemma accumulate_lookup m es : ∀ (d0 d : gmap string bucket) u,
  accumulate fromisoformat m es d0 = Ok d →
  match d0 !! u with
  | Some b0 =>
      ∃ t, sum_durations fromisoformat (user_sessions m u es) (total_minutes b0) = Ok t ∧
           d !! u = Some {| bucket_user_name := bucket_user_name b0;
                            total_minutes := t;
                            sessions := sessions b0 + Z.of_nat (length (user_sessions m u es)) |}
  | None =>
      match user_sessions m u es with
      | [] => d !! u = None
      | e0 :: _ =>
          ∃ t, sum_durations fromisoformat (user_sessions m u es) fzero = Ok t ∧
               d !! u = Some {| bucket_user_name := user_name e0;
                                total_minutes := t;
                                sessions := Z.of_nat (length (user_sessions m u es)) |}
      end
  end.
Proof.
  induction es as [|e es IH]; intros d0 d u H.
  - simpl in H. injection H as <-. unfold user_sessions. simpl.
    destruct (d0 !! u) as [[n t c]|] eqn:Hu; [|done].
    exists t. split; [done|]. simpl. do 2 f_equal. lia.
  - rewrite accumulate_cons in H. rewrite user_sessions_cons.
    destruct (qualifies m e) eqn:Hq; simpl; [|by apply IH].
    destruct (entry_duration fromisoformat e) as [dur|x] eqn:Hd; [|done].
    simpl in H. specialize (IH _ _ u H).
    case_bool_decide as Hu.
    + subst u. rewrite add_session_lookup in IH.
      destruct IH as (t & Hsum & Hlook).
      destruct (d0 !! user_id e) as [b0|] eqn:Hb0; simpl in *.
      * exists t. rewrite Hd. simpl. split; [done|].
        rewrite Hlook. do 2 f_equal. lia.
      * exists t. rewrite Hd. simpl. split; [done|].
        rewrite Hlook. do 2 f_equal. lia.
    + rewrite add_session_lookup_ne in IH by done. done.
Qed.

(** The loop finishes when every qualifying entry has a duration. *)
Lemma accumulate_total m es : ∀ (d0 : gmap string bucket),
  (∀ e, e ∈ es → qualifies m e = true →
        ∃ x, entry_duration fromisoformat e = Ok x) →
  ∃ d, accumulate fromisoformat m es d0 = Ok d.
Proof.
  induction es as [|e es IH]; intros d0 H; [by eexists|].
  rewrite accumulate_cons.
  assert (∀ e', e' ∈ es → qualifies m e' = true →
                ∃ x, entry_duration fromisoformat e' = Ok x) as H'.
  { intros e' He'. apply H. by right. }
  destruct (qualifies m e) eqn:Hq; [|by apply IH].
  destruct (H e) as [x Hx]; [by left|done|]. rewrite Hx. simpl. by apply IH.
Qed.

(** Entries without a leave time leave the dictionary as it is. *)
Lemma accumulate_open m es : ∀ (d0 : gmap string bucket),
  (∀ e, e ∈ es → meeting_id e = m → leave_time e = None) →
  accumulate fromisoformat m es d0 = Ok d0.
Proof.
  induction es as [|e es IH]; intros d0 H; [done|].
  rewrite accumulate_cons.
  assert (qualifies m e = false) as ->.
  { unfold qualifies, completed. case_bool_decide as Hm; [|done].
    rewrite (H e); [by rewrite andb_false_r|by left|done]. }
  apply IH. intros e' He'. apply H. by right.
Qed.

End Aggregator.

Section Reachable.
Variable fromisoformat : string → option datetime.

Lemma run_op_well_formed o (s : store) :
  timed o → Forall well_formed s → Forall well_formed (run_op fromisoformat o s).
Proof.
  intros Ho Hs. destruct o as [now m u name jt|m u lt]; simpl in *.
  - unfold log_join. apply Forall_app. split; [done|].
    apply Forall_singleton. split; [done|]. by left.
  - unfold log_leave.
    destruct (find_open m u (reverse s)) as [[i e]|] eqn:Hf; [|done]. simpl.
    apply find_open_Some in Hf as (Hi & _ & _).
    apply Forall_insert; [done|].
    pose proof (Forall_lookup_1 _ _ _ _ Hs Hi) as [Hj _].
    split; [done|]. right. split; [done|]. by exists lt.
Qed.

Lemma run_ops_well_formed ops : ∀ s : store,
  Forall timed ops → Forall well_formed s →
  Forall well_formed (run_ops fromisoformat ops s).
Proof.
  induction ops as [|o ops IH]; intros s Hops Hs; [done|].
  apply Forall_cons in Hops as [Ho Hops].
  unfold run_ops. simpl. apply IH; [done|]. by apply run_op_well_formed.
Qed.

(** On a well-formed entry the flag ["left"], a set leave time and
    [completed] say the same thing. *)
Lemma well_formed_completed e :
  well_formed e → (completed e = true ↔ event e = "left").
Proof.
  intros (Hj & [[Hev Hl]|[Hev (lt & Hl & Hlt)]]); unfold completed, truthy;
    rewrite Hl, Hev.
  - by rewrite andb_false_r.
  - by rewrite !bool_decide_eq_false_2.
Qed.

(** Over well-formed entries the aggregator counts those flagged
    ["left"]. *)
Lemma well_formed_user_sessions m u (s : store) :
  Forall well_formed s → user_sessions m u s = closed_sessions m u s.
Proof.
  induction 1 as [|e s He Hs IH]; [done|].
  apply well_formed_completed in He.
  assert ((qualifies m e = true ∧ user_id e = u) ↔
          (event e = "left" ∧ meeting_id e = m ∧ user_id e = u)) as Hiff.
  { unfold qualifies. rewrite andb_true_iff, bool_decide_eq_true, He. tauto. }
  unfold user_sessions, closed_sessions in *. rewrite !filter_cons, IH.
  destruct (decide (qualifies m e = true ∧ user_id e = u)) as [Hq|Hq],
    (decide (event e = "left" ∧ meeting_id e = m ∧ user_id e = u)); tauto.
Qed.

(** So it is in every store built from the empty one by timed joins and
    leaves. *)
Lemma reachable_user_sessions ops m u :
  Forall timed ops →
  user_sessions m u (run_ops fromisoformat ops []) =
  closed_sessions m u (run_ops fromisoformat ops []).
Proof.
  intros Hops. apply well_formed_user_sessions.
  by apply run_ops_well_formed.
Qed.

End Reachable.

(** C5 (open sessions are left out of the report).  When no entry of the
    meeting has a leave time, [report] returns an empty [attendance]
    dictionary and [total_participants = 0]. *)
Theorem report_ignores_open_sessions parse m (s : store) :
  (∀ e, e ∈ s → meeting_id e = m → leave_time e = None) →
  report parse m s =
  Ok {| report_meeting_id := m; attendance := ∅; total_participants := 0 |}.
Proof.
  intros H. unfold report, calculate_durations.
  by rewrite accumulate_open.
Qed.

(** Two open entries in the meeting: the report is empty. *)
Lemma report_ignores_open_sessions_witness :
  report iso_parse "M1" [alice_open; bob_open]
  = Ok {| report_meeting_id := "M1"; attendance := ∅; total_participants := 0 |}.
Proof.
  apply report_ignores_open_sessions.
  intros e He _. revert e He. apply Forall_forall. repeat constructor.
Defined.

(** C6 (the aggregation sums the sessions of each user).  Whenever
    [calculate_durations] returns a dictionary, its keys are the users
    with a completed entry in the meeting (meeting id equal, join and
    leave time both present), and for each key [total_minutes] is the
    float sum, in store order from [0.0], of the durations of that user's
    completed entries and [sessions] is their number.  It does return one
    when each of those durations is computed without an exception.  In a
    store built from the empty one by joins and leaves with non-empty
    timestamps the completed entries are those flagged ["left"].  In
    particular two sessions of 10 and 20 minutes give [30.0] and [2]. *)
Theorem durations_sum_completed_sessions :
  (∀ parse m (s : store) d,
     calculate_durations parse m s = Ok d →
     (∀ u b, d !! u = Some b →
        sum_durations parse (user_sessions m u s) fzero = Ok (total_minutes b) ∧
        sessions b = Z.of_nat (length (user_sessions m u s)) ∧
        (0 < length (user_sessions m u s))%nat) ∧
     (∀ u, d !! u = None ↔ user_sessions m u s = [])) ∧
  (∀ parse m (s : store),
     (∀ e, e ∈ s → qualifies m e = true → ∃ x, entry_duration parse e = Ok x) →
     ∃ d, calculate_durations parse m s = Ok d) ∧
  (∀ parse ops m u,
     Forall timed ops →
     user_sessions m u (run_ops parse ops []) =
     closed_sessions m u (run_ops parse ops [])) ∧
  (∃ d b, calculate_durations iso_parse "M1" two_sessions = Ok d ∧
          d !! "U1" = Some b ∧
          total_minutes b = float_of_Z 30 ∧ sessions b = 2 ∧
          map (entry_duration iso_parse) (user_sessions "M1" "U1" two_sessions)
            = [Ok (float_of_Z 10); Ok (float_of_Z 20)]).
Proof.
  split_and!.
  - intros parse m s d H.
    assert (∀ u, match user_sessions m u s with
                 | [] => d !! u = None
                 | e0 :: _ =>
                     ∃ t, sum_durations parse (user_sessions m u s) fzero = Ok t ∧
                          d !! u = Some {| bucket_user_name := user_name e0;
                                           total_minutes := t;
                                           sessions := Z.of_nat (length (user_sessions m u s)) |}
                 end) as Hinv.
    { intros u. pose proof (accumulate_lookup parse m s ∅ d u H) as Hu.
      by rewrite lookup_empty in Hu. }
    split.
    + intros u b Hb. specialize (Hinv u).
      destruct (user_sessions m u s) as [|e0 us]; [congruence|].
      destruct Hinv as (t & Hsum & Hlook). rewrite Hlook in Hb.
      injection Hb as <-. simpl. split_and!; [done|done|lia].
    + intros u. specialize (Hinv u).
      destruct (user_sessions m u s) as [|e0 us]; [done|].
      destruct Hinv as (t & _ & Hlook). rewrite Hlook. done.
  - intros parse m s H. by apply accumulate_total.
  - intros parse ops m u. apply reachable_user_sessions.
  - eexists _, _. split_and!; [by vm_compute|by vm_compute|by vm_compute..].
Qed.

(** The two sessions of Alice. *)
Lemma durations_sum_completed_sessions_witness :
  ∃ d, calculate_durations iso_parse "M1" two_sessions = Ok d ∧
       ∀ u b, d !! u = Some b →
         sum_durations iso_parse (user_sessions "M1" u two_sessions) fzero
           = Ok (total_minutes b) ∧
         sessions b = Z.of_nat (length (user_sessions "M1" u two_sessions)) ∧
         (0 < length (user_sessions "M1" u two_sessions))%nat.
Proof.
  destruct (calculate_durations iso_parse "M1" two_sessions) as [d|x] eqn:Hd.
  - exists d. split; [reflexivity|].
    apply (proj1 ((proj1 durations_sum_completed_sessions)
                    iso_parse "M1" two_sessions d Hd)).
  - vm_compute in Hd. discriminate Hd.
Defined.

(* ===================================================================== *)
(** * The query facade *)
(* ===================================================================== *)

Lemma string_app_length a t :
  String.length (a +:+ t) = (String.length a + String.length t)%nat.
Proof.
  induction a as [|c a IH]; [done|].
  change (S (String.length (a +:+ t)) = S (String.length a + String.length t)).
  by rewrite IH.
Qed.

Lemma string_app_inv_tail t : ∀ a b, a +:+ t = b +:+ t → a = b.
Proof.
  induction a as [|c a IH]; intros [|c' b] H.
  - done.
  - apply (f_equal String.length) in H.
    rewrite !string_app_length in H. simpl in H. lia.
  - apply (f_equal String.length) in H.
    rewrite !string_app_length in H. simpl in H. lia.
  - change (String c (a +:+ t) = String c' (b +:+ t)) in H.
    injection H as -> H. f_equal. by apply IH.
Qed.

(** C2, as stated, fails: on a store of one entry [clear_logs] returns
    the text ["Cleared 1 log entries"] and the integer [0], not the
    integer [1]. *)
Lemma clear_logs_returns_no_integer_count :
  message (clear_logs [alice_open]).2 = "Cleared 1 log entries" ∧
  remaining (clear_logs [alice_open]).2 = 0 ∧
  remaining (clear_logs [alice_open]).2 ≠ Z.of_nat (length [alice_open]).
Proof. split_and!; [done|done|]. simpl. lia. Qed.

(** C2, amended (clear resets the store).  [clear_logs] replaces the
    store by the empty list and returns the integer [remaining = 0]
    together with a message that spells, in decimal, the number of
    entries held before the call; two stores get the same message only
    if they held as many entries.  Afterwards [get_logs] without a
    meeting id returns the empty list, with [total_entries = 0]. *)
Theorem clear_logs_empties_store :
  (∀ s : store,
     (clear_logs s).1 = [] ∧
     message (clear_logs s).2 = "Cleared " +:+ pretty (length s) +:+ " log entries" ∧
     remaining (clear_logs s).2 = 0 ∧
     get_logs None (clear_logs s).1 = all_logs [] 0) ∧
  (∀ s1 s2 : store,
     message (clear_logs s1).2 = message (clear_logs s2).2 →
     length s1 = length s2).
Proof.
  split; [done|]. intros s1 s2 H. simpl in H.
  apply (inj (String.app "Cleared ")) in H.
  apply string_app_inv_tail in H. by apply (inj pretty) in H.
Qed.

(** Two stores of two entries get the same message. *)
Lemma clear_logs_empties_store_witness :
  length [alice_open; bob_open] = length [alice_closed; alice_rejoined].
Proof.
  apply (proj2 clear_logs_empties_store). reflexivity.
Defined.


(* ===================================================================== *)
(** * The scenario of the specification *)
(* ===================================================================== *)

(** Alice joins M1 at 09:00 and leaves at 09:45: the leave is matched
    with 45 minutes, and the report holds her alone, 45.0 minutes in one
    session. *)
Example scenario_join_leave_report :
  let joined := log_join "t0" "M1" "U1" "Alice" "2024-01-01T09:00:00Z" [] in
  let left := log_leave iso_parse "M1" "U1" "2024-01-01T09:45:00Z" joined in
  left.2 = Ok (matched (float_of_Z 45)) ∧
  report iso_parse "M1" left.1 =
  Ok {| report_meeting_id := "M1";
        attendance := {[ "U1" := {| bucket_user_name := "Alice";
                                    total_minutes := float_of_Z 45;
                                    sessions := 1 |} ]};
        total_participants := 1 |}.
Proof. split; by vm_compute. Qed.

(* ===================================================================== *)
(** * Further properties of the session matcher *)
(* ===================================================================== *)

Section MatcherMore.
Variable fromisoformat : string → option datetime.

(** A closed entry is open for no pair. *)
Lemma close_entry_not_open m u lt e : is_open_for m u (close_entry lt e) = false.
Proof. apply left_not_open. done. Qed.

(** An entry is open for one pair only. *)
Lemma is_open_for_pair m u m' u' e :
  is_open_for m u e = true → is_open_for m' u' e = true → m' = m ∧ u' = u.
Proof.
  unfold is_open_for. rewrite !andb_true_iff, !bool_decide_eq_true.
  intros [[[_ <-] <-] _] [[[_ <-] <-] _]. done.
Qed.

Lemma open_count_app m u (s t : store) :
  open_count m u (s ++ t) = (open_count m u s + open_count m u t)%nat.
Proof. unfold open_count. by rewrite filter_app, length_app. Qed.

Lemma open_count_cons m u e (s : store) :
  open_count m u (e :: s) =
  ((if is_open_for m u e then 1 else 0) + open_count m u s)%nat.
Proof.
  unfold open_count. rewrite filter_cons.
  destruct (is_open_for m u e); by case_decide.
Qed.

End MatcherMore.

(** A leave right after a join for the same pair finds that join. *)
Lemma log_leave_log_join parse now m u name jt lt (s : store) :
  log_leave parse m u lt (log_join now m u name jt s) =
  (s ++ [ {| event := "left"; meeting_id := m; user_id := u;
             user_name := name; join_time := jt; leave_time := Some lt;
             timestamp := now |} ],
   d ← calculate_duration parse jt lt; Ok (matched d)).
Proof.
  unfold log_join, log_leave. rewrite find_open_snoc.
  assert (is_open_for m u
            {| event := "joined"; meeting_id := m; user_id := u;
               user_name := name; join_time := jt; leave_time := None;
               timestamp := now |} = true) as ->.
  { unfold is_open_for. simpl. by rewrite !bool_decide_eq_true_2. }
  rewrite insert_app_r_alt by done. by rewrite Nat.sub_diag.
Qed.

(** X1 (a join followed by its leave).  On any store, a join and then a
    leave for the same meeting and user close the entry just appended and
    nothing else: the store is the old one followed by that entry in
    closed form, and the duration reported is that of the two
    timestamps. *)
Theorem leave_after_join_closes_it parse now m u name jt lt (s : store) :
  log_leave parse m u lt (log_join now m u name jt s) =
  (s ++ [ {| event := "left"; meeting_id := m; user_id := u;
             user_name := name; join_time := jt; leave_time := Some lt;
             timestamp := now |} ],
   d ← calculate_duration parse jt lt; Ok (matched d)).
Proof. apply log_leave_log_join. Qed.

(** X2 (the open entries of a pair are counted like a stack).  A join
    adds one open entry for its own pair and none for any other; a leave
    takes one away from its own pair when there is one, and never touches
    the count of another pair. *)
Theorem open_entries_are_counted parse :
  (∀ now m u name jt m' u' (s : store),
     open_count m' u' (log_join now m u name jt s) =
     (open_count m' u' s +
      (if bool_decide (m' = m ∧ u' = u) then 1 else 0))%nat) ∧
  (∀ m u lt m' u' (s : store),
     open_count m' u' (log_leave parse m u lt s).1 =
     if bool_decide (m' = m ∧ u' = u) then Nat.pred (open_count m' u' s)
     else open_count m' u' s).
Proof.
  split.
  - intros now m u name jt m' u' s. unfold log_join.
    rewrite open_count_app, open_count_cons. f_equal.
    unfold is_open_for, open_count. simpl.
    destruct (decide (m = m')) as [->|Hm], (decide (u = u')) as [->|Hu].
    + by rewrite !bool_decide_eq_true_2.
    + rewrite (bool_decide_eq_false_2 (u = u')) by done.
      rewrite (bool_decide_eq_false_2 (m' = m' ∧ u' = u)) by (intros [_ ?]; congruence).
      by rewrite andb_false_r.
    + rewrite (bool_decide_eq_false_2 (m = m')) by done.
      by rewrite (bool_decide_eq_false_2 (m' = m ∧ u' = u')) by (intros [? _]; congruence).
    + rewrite (bool_decide_eq_false_2 (m = m')) by done.
      by rewrite (bool_decide_eq_false_2 (m' = m ∧ u' = u)) by (intros [? _]; congruence).
  - intros m u lt m' u' s. unfold log_leave.
    destruct (find_open m u (reverse s)) as [[i e]|] eqn:Hf; simpl.
    + apply find_open_Some in Hf as (Hi & He & _).
      assert (open_count m' u' s =
              (open_count m' u' (take i s) +
               ((if is_open_for m' u' e then 1 else 0) +
                open_count m' u' (drop (S i) s)))%nat) as Hsplit.
      { rewrite <- (take_drop_middle s i e Hi) at 1.
        by rewrite open_count_app, open_count_cons. }
      rewrite insert_take_drop by (by eapply lookup_lt_Some).
      rewrite open_count_app, open_count_cons, close_entry_not_open, Hsplit.
      case_bool_decide as Hp.
      * destruct Hp as [-> ->]. rewrite He. lia.
      * destruct (is_open_for m' u' e) eqn:He'; [|done].
        destruct Hp. by eapply is_open_for_pair.
    + case_bool_decide as Hp; [|done]. destruct Hp as [-> ->].
      pose proof (proj1 (find_open_None m u s) Hf) as Hn.
      assert (open_count m u s = 0%nat) as ->; [|done].
      unfold open_count. induction s as [|x s IH]; [done|].
      rewrite filter_cons. rewrite decide_False.
      * apply IH; [|intros e' He'; apply Hn; by right].
        by apply find_open_None; intros e' He'; apply Hn; right.
      * rewrite Hn; [done|by left].
Qed.

(** X3 (the store grows by joins only).  After any sequence of joins and
    leaves the store holds as many entries as before plus one per join:
    a leave, matched or not, never adds or removes an entry. *)
Theorem store_length_counts_joins parse (ops : list op) : ∀ s : store,
  length (run_ops parse ops s) = (length s + joins ops)%nat.
Proof.
  induction ops as [|o ops IH]; intros s.
  - unfold joins. simpl. lia.
  - unfold run_ops. simpl. fold (run_ops parse ops (run_op parse o s)).
    rewrite IH. unfold joins. rewrite filter_cons.
    destruct o as [now m u name jt|m u lt]; simpl.
    + unfold log_join. rewrite length_app. simpl. lia.
    + unfold log_leave.
      destruct (find_open m u (reverse s)) as [[i e]|]; simpl;
        [rewrite length_insert|]; lia.
Qed.

(** X4 (the flag follows the leave time).  Starting from the empty store,
    whatever joins and leaves are applied, every entry is either flagged
    ["joined"] with no leave time or flagged ["left"] with a leave time;
    so an entry is open for a pair exactly when it has that meeting id
    and user id and no leave time. *)
Theorem flag_follows_leave_time parse (ops : list op) e :
  e ∈ run_ops parse ops [] →
  flag_consistent e ∧
  (∀ m u, is_open_for m u e = true ↔
          meeting_id e = m ∧ user_id e = u ∧ leave_time e = None).
Proof.
  assert (∀ s : store, Forall flag_consistent s →
            Forall flag_consistent (run_ops parse ops s)) as Hinv.
  { induction ops as [|o ops IH]; intros s Hs; [done|].
    unfold run_ops. simpl. apply IH.
    destruct o as [now m u name jt|m u lt]; simpl.
    - unfold log_join. apply Forall_app. split; [done|].
      apply Forall_singleton. by left.
    - unfold log_leave.
      destruct (find_open m u (reverse s)) as [[i x]|]; [|done]. simpl.
      apply Forall_insert; [done|]. by right. }
  intros He.
  pose proof (proj1 (Forall_forall _ _) (Hinv [] (Forall_nil_2 _)) e He) as Hc.
  split; [done|]. intros m u. unfold is_open_for.
  rewrite !andb_true_iff, !bool_decide_eq_true.
  destruct Hc as [[Hev Hl]|[Hev Hl]]; rewrite Hev.
  - tauto.
  - split; [intros [[[? _] _] _]; discriminate|tauto].
Qed.

(** Alice's closed entry, reached by a join and a leave. *)
Lemma flag_follows_leave_time_witness :
  flag_consistent alice_closed ∧
  (∀ m u, is_open_for m u alice_closed = true ↔
          meeting_id alice_closed = m ∧ user_id alice_closed = u ∧
          leave_time alice_closed = None).
Proof.
  apply (flag_follows_leave_time iso_parse
           [ Join "t0" "M1" "U1" "Alice" "2024-01-01T09:00:00Z";
             Leave "M1" "U1" "2024-01-01T09:45:00Z" ]).
  apply list_elem_of_lookup. exists 0%nat. reflexivity.
Defined.

(* ===================================================================== *)
(** * Further properties of the duration calculator *)
(* ===================================================================== *)

(** Rounding commutes with a change of sign. *)
Lemma binary_round_aux_opp prec emax sx mx ex lx :
  binary_round_aux prec emax (negb sx) mx ex lx =
  SFopp (binary_round_aux prec emax sx mx ex lx).
Proof.
  unfold binary_round_aux.
  destruct (shr_fexp prec emax mx ex lx) as [mrs' e'].
  destruct (shr_fexp prec emax _ e' loc_Exact) as [mrs'' e''].
  destruct (shr_m mrs'') as [|p|p]; [done| |done].
  by destruct (e'' <=? emax - prec).
Qed.

Lemma fdiv_opp_l x y : fdiv (SFopp x) y = SFopp (fdiv x y).
Proof.
  destruct x as [sx|sx| |sx mx ex], y as [sy|sy| |sy my ey]; try done;
    unfold fdiv; simpl; try (by destruct sx, sy).
  destruct (SFdiv_core_binary 53 1024 (Z.pos mx) ex (Z.pos my) ey) as [[mz ez] lz].
  rewrite <- binary_round_aux_opp. by destruct sx, sy.
Qed.

(** Float minutes of the opposite span: the opposite float. *)
Lemma minutes_of_micros_opp us :
  us ≠ 0 → minutes_of_micros (- us) = SFopp (minutes_of_micros us).
Proof.
  intros Hus. unfold minutes_of_micros, int_truediv.
  rewrite <- fdiv_opp_l. f_equal.
  destruct us as [|p|p]; [done| |]; by rewrite <- fdiv_opp_l.
Qed.

(** When the duration calculator raises, and what. *)
Lemma calculate_duration_Raise parse jt lt x :
  calculate_duration parse jt lt = Raise x ↔
  x = TypeError ∧
  ∃ dj dl, parse (replace_Z jt) = Some dj ∧ parse (replace_Z lt) = Some dl ∧
           aware dl ≠ aware dj.
Proof.
  destruct (parse (replace_Z jt)) as [dj|] eqn:Hj.
  - destruct (parse (replace_Z lt)) as [dl|] eqn:Hl.
    + rewrite (calculate_duration_parsed parse jt lt dj dl Hj Hl).
      case_bool_decide as Ha.
      * split; [done|]. intros (_ & dj' & dl' & [= <-] & [= <-] & Hne). done.
      * split.
        -- intros [= <-]. split; [done|]. by exists dj, dl.
        -- by intros [-> _].
    + rewrite calculate_duration_unparsed by (by right).
      split; [done|]. by intros (_ & dj' & dl' & _ & ? & _).
  - rewrite calculate_duration_unparsed by (by left).
    split; [done|]. by intros (_ & dj' & dl' & ? & _).
Qed.

(** X5 (what the duration calculator raises).  [calculate_duration]
    raises nothing but [TypeError], and raises it exactly when both
    timestamps parse and one of the two datetimes is naive while the other
    is aware; in every other case it returns a float. *)
Theorem calculate_duration_raises_only_on_mixed_awareness parse jt lt x :
  calculate_duration parse jt lt = Raise x ↔
  x = TypeError ∧
  ∃ dj dl, parse (replace_Z jt) = Some dj ∧ parse (replace_Z lt) = Some dl ∧
           aware dl ≠ aware dj.
Proof. apply calculate_duration_Raise. Qed.

(** X6 (equal timestamps).  Whatever the string, and whether it parses or
    not, the duration from a timestamp to itself is exactly [0.0]. *)
Theorem calculate_duration_same_timestamp parse t :
  calculate_duration parse t t = Ok fzero.
Proof.
  destruct (parse (replace_Z t)) as [d|] eqn:Ht.
  - rewrite (calculate_duration_parsed parse t t d d Ht Ht).
    rewrite bool_decide_eq_true_2 by done. by rewrite Z.sub_diag.
  - apply calculate_duration_unparsed. by left.
Qed.

(** X7 (swapping the two timestamps).  When both timestamps parse, are
    both aware or both naive and denote different instants, exchanging
    join and leave time gives the opposite float. *)
Theorem calculate_duration_swapped parse jt lt dj dl :
  parse (replace_Z jt) = Some dj → parse (replace_Z lt) = Some dl →
  aware dl = aware dj → instant dl ≠ instant dj →
  ∃ d, calculate_duration parse jt lt = Ok d ∧
       calculate_duration parse lt jt = Ok (SFopp d).
Proof.
  intros Hj Hl Ha Hne. exists (minutes_of_micros (instant dl - instant dj)).
  rewrite (calculate_duration_parsed parse jt lt dj dl Hj Hl).
  rewrite (calculate_duration_parsed parse lt jt dl dj Hl Hj).
  rewrite !bool_decide_eq_true_2 by done. split; [done|].
  rewrite <- minutes_of_micros_opp by lia. do 2 f_equal. lia.
Qed.

(** From 09:00 to 09:45 and back: 45.0 and -45.0. *)
Lemma calculate_duration_swapped_witness :
  ∃ d, calculate_duration iso_parse "2024-01-01T09:00:00Z" "2024-01-01T09:45:00Z" = Ok d ∧
       calculate_duration iso_parse "2024-01-01T09:45:00Z" "2024-01-01T09:00:00Z" = Ok (SFopp d).
Proof.
  apply (calculate_duration_swapped iso_parse
           "2024-01-01T09:00:00Z" "2024-01-01T09:45:00Z"
           (Build_datetime 2024 1 1 9 0 0 0 (Some 0))
           (Build_datetime 2024 1 1 9 45 0 0 (Some 0)));
    [reflexivity|reflexivity|reflexivity|].
  vm_compute. discriminate.
Defined.

(* ===================================================================== *)
(** * Further properties of the aggregator *)
(* ===================================================================== *)

Section AggregatorMore.
Variable fromisoformat : string → option datetime.

(** The loop over a concatenation is the loop over its two parts. *)
Lemma accumulate_app m a b : ∀ d : gmap string bucket,
  accumulate fromisoformat m (a ++ b) d =
  (d' ← accumulate fromisoformat m a d; accumulate fromisoformat m b d').
Proof.
  induction a as [|e a IH]; intros d; [done|].
  change ((e :: a) ++ b) with (e :: (a ++ b)). rewrite !accumulate_cons.
  destruct (qualifies m e); [|by apply IH].
  destruct (entry_duration fromisoformat e) as [x|x]; [|done]. simpl. by apply IH.
Qed.

(** Entries that do not qualify can be filtered out beforehand. *)
Lemma accumulate_filter m (P : entry → Prop) `{!∀ e, Decision (P e)} es :
  (∀ e, qualifies m e = true → P e) →
  ∀ d : gmap string bucket,
    accumulate fromisoformat m (filter P es) d = accumulate fromisoformat m es d.
Proof.
  intros HP. induction es as [|e es IH]; intros d; [done|].
  rewrite filter_cons. destruct (decide (P e)) as [Hp|Hp].
  - rewrite !accumulate_cons. destruct (qualifies m e); [|by apply IH].
    destruct (entry_duration fromisoformat e) as [x|x]; [|done]. simpl. by apply IH.
  - rewrite accumulate_cons, IH.
    destruct (qualifies m e) eqn:Hq; [|done]. destruct Hp. by apply HP.
Qed.

(** The duration of an entry raises nothing but [TypeError]. *)
Lemma entry_duration_Raise e x :
  entry_duration fromisoformat e = Raise x → x = TypeError.
Proof.
  unfold entry_duration. destruct (leave_time e) as [lt|]; [|done].
  intros H. by apply calculate_duration_Raise in H as [-> _].
Qed.

(** The loop raises when, and only when, some qualifying entry does. *)
Lemma accumulate_Raise m es : ∀ (d : gmap string bucket) x,
  accumulate fromisoformat m es d = Raise x ↔
  x = TypeError ∧
  ∃ e, e ∈ es ∧ qualifies m e = true ∧
       entry_duration fromisoformat e = Raise TypeError.
Proof.
  induction es as [|e es IH]; intros d x.
  - split; [done|]. intros (_ & e & He & _). by apply elem_of_nil in He.
  - rewrite accumulate_cons. destruct (qualifies m e) eqn:Hq.
    + destruct (entry_duration fromisoformat e) as [dur|y] eqn:Hd; simpl.
      * rewrite IH. split.
        -- intros (-> & e' & He' & Hq' & Hd'). split; [done|].
           exists e'. split_and!; [by right|done|done].
        -- intros (-> & e' & He' & Hq' & Hd'). split; [done|].
           apply elem_of_cons in He' as [->|He']; [congruence|].
           by exists e'.
      * pose proof (entry_duration_Raise e y Hd) as ->. split.
        -- intros [= <-]. split; [done|]. exists e. split_and!; [by left|done|done].
        -- by intros [-> _].
    + rewrite IH. split.
      * intros (-> & e' & He' & Hq' & Hd'). split; [done|].
        exists e'. split_and!; [by right|done|done].
      * intros (-> & e' & He' & Hq' & Hd'). split; [done|].
        apply elem_of_cons in He' as [->|He']; [congruence|].
        by exists e'.
Qed.

(** A user has a bucket exactly when one of the user's entries qualifies. *)
Lemma user_sessions_nil m u (s : store) :
  user_sessions m u s = [] ↔
  ¬ ∃ e, e ∈ s ∧ qualifies m e = true ∧ user_id e = u.
Proof.
  unfold user_sessions. split.
  - intros Hnil (e & He & Hq & Hu).
    assert (e ∈ filter (λ e, qualifies m e = true ∧ user_id e = u) s) as Hin
      by (by apply list_elem_of_filter).
    rewrite Hnil in Hin. by apply elem_of_nil in Hin.
  - intros Hno.
    destruct (filter (λ e, qualifies m e = true ∧ user_id e = u) s)
      as [|e l] eqn:Hf; [done|].
    destruct Hno. exists e.
    assert (e ∈ filter (λ e, qualifies m e = true ∧ user_id e = u) s) as Hin
      by (rewrite Hf; by left).
    apply list_elem_of_filter in Hin as [[Hq Hu] He]. done.
Qed.

End AggregatorMore.

(** X8 (the name in a bucket).  The [user_name] of a user's bucket is the
    name carried by the first completed entry of that user in the
    meeting: a later entry with another name adds to the totals and does
    not change the name. *)
Theorem bucket_name_is_first_session parse m (s : store) d u b :
  calculate_durations parse m s = Ok d → d !! u = Some b →
  ∃ e0 rest, user_sessions m u s = e0 :: rest ∧
             bucket_user_name b = user_name e0.
Proof.
  intros H Hb. pose proof (accumulate_lookup parse m s ∅ d u H) as Hu.
  rewrite lookup_empty in Hu.
  destruct (user_sessions m u s) as [|e0 rest]; [congruence|].
  destruct Hu as (t & _ & Hlook). rewrite Hlook in Hb. injection Hb as <-.
  by exists e0, rest.
Qed.

(** Alice, later Alicia: the bucket says Alice, with both sessions. *)
Lemma bucket_name_is_first_session_witness :
  ∃ d b, calculate_durations iso_parse "M1" renamed_sessions = Ok d ∧
         d !! "U1" = Some b ∧ bucket_user_name b = "Alice" ∧ sessions b = 2.
Proof.
  destruct (calculate_durations iso_parse "M1" renamed_sessions) as [d|x] eqn:Hd;
    [|vm_compute in Hd; discriminate Hd].
  destruct (d !! "U1") as [b|] eqn:Hb.
  - exists d, b. split_and!; [reflexivity|exact Hb| |].
    + destruct (bucket_name_is_first_session iso_parse "M1" renamed_sessions
                  d "U1" b Hd Hb) as (e0 & rest & Hs & ->).
      vm_compute in Hs. injection Hs as <- _. reflexivity.
    + vm_compute in Hd. injection Hd as <-. vm_compute in Hb.
      injection Hb as <-. reflexivity.
  - vm_compute in Hd. injection Hd as <-. vm_compute in Hb. discriminate Hb.
Defined.

(** X9 (who is counted).  When [report] returns, the keys of [attendance]
    are the user ids that occur on a completed entry of the meeting, and
    [total_participants] is the number of distinct such user ids. *)
Theorem report_counts_distinct_users parse m (s : store) r :
  report parse m s = Ok r →
  (∀ u, is_Some (attendance r !! u) ↔
        ∃ e, e ∈ s ∧ qualifies m e = true ∧ user_id e = u) ∧
  total_participants r =
  size (list_to_set (user_id <$> filter (λ e, qualifies m e = true) s) : gset string).
Proof.
  unfold report. destruct (calculate_durations parse m s) as [d|x] eqn:Hd; [|done].
  simpl. intros [= <-]. simpl.
  assert (∀ u, is_Some (d !! u) ↔
               ∃ e, e ∈ s ∧ qualifies m e = true ∧ user_id e = u) as Hkeys.
  { intros u. pose proof (accumulate_lookup parse m s ∅ d u Hd) as Hu.
    rewrite lookup_empty in Hu.
    pose proof (user_sessions_nil m u s) as Hnil.
    destruct (user_sessions m u s) as [|e0 rest] eqn:Hus.
    - rewrite Hu. split; [by intros [? ?]|]. intros He.
      by destruct (proj1 Hnil eq_refl).
    - destruct Hu as (t & _ & ->). split; [intros _|by eauto].
      assert (e0 ∈ user_sessions m u s) as Hin by (rewrite Hus; by left).
      apply list_elem_of_filter in Hin as [[Hq Hid] He]. by exists e0. }
  split; [done|]. rewrite <- size_dom. f_equal. apply set_eq. intros u.
  rewrite elem_of_dom, Hkeys, elem_of_list_to_set, list_elem_of_fmap.
  split.
  - intros (e & He & Hq & <-). exists e. split; [done|].
    by apply list_elem_of_filter.
  - intros (e & -> & [Hq He]%list_elem_of_filter). by exists e.
Qed.

(** X10 (the report of a meeting's own log).  For a non-empty meeting id,
    [get_logs] returns the entries of that meeting in store order, and
    [report] computed on that list alone is the report computed on the
    whole store, the same dictionary or the same exception. *)
Theorem report_of_filtered_log parse m (s : store) :
  m ≠ EmptyString →
  ∃ l, get_logs (Some m) s = filtered_logs l m ∧
       l = filter (λ e, meeting_id e = m) s ∧
       report parse m l = report parse m s.
Proof.
  intros Hm. exists (filter (λ e, meeting_id e = m) s). split_and!.
  - unfold get_logs, truthy. by rewrite bool_decide_eq_false_2.
  - done.
  - unfold report, calculate_durations. rewrite accumulate_filter; [done|].
    intros e [He _]%andb_true_iff. by apply bool_decide_eq_true in He.
Qed.

(** X11 (when the report fails on a store of strings).  On a store
    whose entries hold strings for ids, names and timestamps, as
    [log_join] and [log_leave] are annotated, [report] raises nothing but
    [TypeError], and raises it exactly when the meeting has a completed
    entry whose duration raises it; otherwise it returns.  A store that
    holds a user id of another type, which the webhook can write, is not
    covered: an unhashable id makes the dictionary lookup raise. *)
Theorem report_raises_only_on_mixed_entry parse m (s : store) x :
  report parse m s = Raise x ↔
  x = TypeError ∧
  ∃ e, e ∈ s ∧ qualifies m e = true ∧ entry_duration parse e = Raise TypeError.
Proof.
  rewrite <- (accumulate_Raise parse m s ∅ x).
  unfold report, calculate_durations.
  destruct (accumulate parse m s ∅) as [d|y]; unfold mbind, result_bind.
  - split; discriminate.
  - split; by intros [= ->].
Qed.

(** X12 (what leaves a report alone).  The report of a meeting is not
    changed by any join, nor by a leave for another meeting. *)
Theorem report_unchanged_by_joins_and_other_meetings parse m (s : store) :
  (∀ now m' u name jt, report parse m (log_join now m' u name jt s) = report parse m s) ∧
  (∀ m' u lt, m' ≠ m → report parse m (log_leave parse m' u lt s).1 = report parse m s).
Proof.
  split.
  - intros now m' u name jt. unfold report, calculate_durations, log_join.
    rewrite accumulate_app.
    by destruct (accumulate parse m s ∅) as [d|x].
  - intros m' u lt Hne. unfold log_leave.
    destruct (find_open m' u (reverse s)) as [[i e]|] eqn:Hf; [|done]. simpl.
    apply find_open_Some in Hf as (Hi & He & _).
    assert (meeting_id e = m') as Hme.
    { unfold is_open_for in He. rewrite !andb_true_iff in He.
      destruct He as [[[_ Hm%bool_decide_eq_true] _] _]. done. }
    unfold report, calculate_durations.
    rewrite insert_take_drop by (by eapply lookup_lt_Some).
    rewrite <- (take_drop_middle s i e Hi) at 3.
    rewrite !accumulate_app.
    destruct (accumulate parse m (take i s) ∅) as [d|x]; [|done]. simpl.
    rewrite Hme, (bool_decide_eq_false_2 (m' = m)) by done.
    by destruct (leave_time e).
Qed.

(** Two users completed a session in the renamed store, one per meeting. *)
Lemma report_counts_distinct_users_witness :
  ∃ r, report iso_parse "M1" renamed_sessions = Ok r ∧
       total_participants r =
       size (list_to_set (user_id <$> filter (λ e, qualifies "M1" e = true)
                                        renamed_sessions) : gset string).
Proof.
  destruct (report iso_parse "M1" renamed_sessions) as [r|x] eqn:Hr;
    [|vm_compute in Hr; discriminate Hr].
  exists r. split; [reflexivity|].
  apply (proj2 (report_counts_distinct_users iso_parse "M1" renamed_sessions r Hr)).
Defined.

(** The log of meeting M1 alone gives the report of M1. *)
Lemma report_of_filtered_log_witness :
  ∃ l, get_logs (Some "M1") renamed_sessions = filtered_logs l "M1" ∧
       l = filter (λ e, meeting_id e = "M1") renamed_sessions ∧
       report iso_parse "M1" l = report iso_parse "M1" renamed_sessions.
Proof.
  apply (report_of_filtered_log iso_parse "M1" renamed_sessions). discriminate.
Defined.

(** A session joined at an aware time and left at a naive one. *)
Lemma report_raises_only_on_mixed_entry_witness :
  report iso_parse "M1" mixed_session = Raise TypeError.
Proof.
  apply (proj2 (report_raises_only_on_mixed_entry iso_parse "M1" mixed_session TypeError)).
  split; [reflexivity|].
  exists (close_entry "2024-01-01T09:10:00" alice_open).
  split_and!; [|reflexivity|reflexivity].
  apply list_elem_of_lookup. exists 0%nat. reflexivity.
Defined.

(** Bob leaving M2 does not change the report of M1. *)
Lemma report_unchanged_by_joins_and_other_meetings_witness :
  report iso_parse "M1"
    (log_leave iso_parse "M2" "U2" "2024-01-01T10:00:00Z" two_sessions).1
  = report iso_parse "M1" two_sessions.
Proof.
  apply (proj2 (report_unchanged_by_joins_and_other_meetings iso_parse "M1" two_sessions)).
  discriminate.
Defined.

(* ===================================================================== *)
(** * Further properties of the query facade *)
(* ===================================================================== *)

(** X13 (the views of the log).  Without a meeting id, or with the empty
    string for one, [get_logs] returns the whole store and its length: an
    empty meeting id cannot be filtered for.  With a non-empty meeting id
    it returns, in store order, exactly the entries of that meeting. *)
Theorem get_logs_views (s : store) :
  get_logs None s = all_logs s (length s) ∧
  get_logs (Some EmptyString) s = all_logs s (length s) ∧
  (∀ m, m ≠ EmptyString →
     ∃ l, get_logs (Some m) s = filtered_logs l m ∧
          l `sublist_of` s ∧
          (∀ e, e ∈ l ↔ e ∈ s ∧ meeting_id e = m)).
Proof.
  split_and!; [done|done|]. intros m Hm.
  exists (filter (λ e, meeting_id e = m) s). split_and!.
  - unfold get_logs, truthy. by rewrite bool_decide_eq_false_2.
  - apply sublist_filter.
  - intros e. rewrite list_elem_of_filter. tauto.
Qed.

(** The entries of M2 in the renamed store. *)
Lemma get_logs_views_witness :
  ∃ l, get_logs (Some "M2") renamed_sessions = filtered_logs l "M2" ∧
       l `sublist_of` renamed_sessions ∧
       (∀ e, e ∈ l ↔ e ∈ renamed_sessions ∧ meeting_id e = "M2").
Proof.
  apply (proj2 (proj2 (get_logs_views renamed_sessions))). discriminate.
Defined.

(* ===================================================================== *)
(** * Properties of the webhook endpoint *)
(* ===================================================================== *)

Section WebhookProps.
Variable repr_compound : pyval → string.
Variable hmac_sha256_hex : string → string → string.
Variable fromisoformat : string → option datetime.

Abbreviation webhook := (zoom_webhook repr_compound hmac_sha256_hex fromisoformat).
Abbreviation try_block := (webhook_try repr_compound hmac_sha256_hex fromisoformat).

(** What is read from a body of the shape Zoom sends. *)
Lemma read_participant_event ev meeting fields :
  read_participant repr_compound (participant_event ev meeting fields) =
  Val (py_str repr_compound meeting,
       py_or (py_or (from_option id PNone (items_get "user_id" fields))
                    (from_option id PNone (items_get "id" fields)))
             (PStr "unknown"),
       from_option id (PStr "Unknown User") (items_get "user_name" fields),
       PDict fields).
Proof. reflexivity. Qed.

(** A truthy string is a non-empty one. *)
Lemma truthy_true s : truthy s = true ↔ s ≠ EmptyString.
Proof.
  unfold truthy. rewrite negb_true_iff, bool_decide_eq_false. done.
Qed.

(** The user id chosen by the handler, once it is a string, is not empty. *)
Lemma chosen_user_nonempty a b u :
  typed (py_or (py_or a b) (PStr "unknown")) = Val u → u ≠ EmptyString.
Proof.
  unfold py_or.
  destruct (py_truthy (if py_truthy a then a else b)) eqn:Ht.
  - destruct (py_truthy a) eqn:Ha.
    + destruct a; try done. simpl. intros [= <-]. by apply truthy_true.
    + destruct b; try done. simpl. intros [= <-]. by apply truthy_true.
  - simpl. by intros [= <-].
Qed.

Lemma typed_truthy v t : typed v = Val t → py_truthy v = true → t ≠ EmptyString.
Proof. destruct v; try done. simpl. intros [= <-]. by apply truthy_true. Qed.

(** The only ways the [try] block changes the store. *)
Lemma webhook_try_store now body (s : store) :
  (try_block now body s).1 = s ∨
  (∃ m u name jt, u ≠ EmptyString ∧ jt ≠ EmptyString ∧
     (try_block now body s).1 = log_join now m u name jt s) ∨
  (∃ m u lt, u ≠ EmptyString ∧ lt ≠ EmptyString ∧
     (try_block now body s).1 = (log_leave fromisoformat m u lt s).1).
Proof.
  unfold webhook_try.
  destruct (py_get body "event" PNone) as [event| |]; [|by left..].
  destruct (py_is event "endpoint.url_validation"); [by left|].
  destruct (read_participant repr_compound body) as [[[[m user] name] p]| |] eqn:Hr;
    [|by left..].
  assert (∃ a b, user = py_or (py_or a b) (PStr "unknown")) as (a & b & ->).
  { unfold read_participant in Hr.
    destruct (py_get body "payload" (PDict [])) as [outer| |]; try done. simpl in Hr.
    destruct (py_get outer "object" (PDict [])) as [payload| |]; try done. simpl in Hr.
    destruct (negb (py_truthy payload)); [done|].
    destruct (py_get payload "id" (PStr "unknown")) as [mid| |]; try done. simpl in Hr.
    destruct (py_get payload "participant" (PDict [])) as [part| |]; try done. simpl in Hr.
    destruct (py_get part "user_id" PNone) as [a| |]; try done. simpl in Hr.
    destruct (py_get part "id" PNone) as [b| |]; try done. simpl in Hr.
    destruct (py_get part "user_name" (PStr "Unknown User")) as [n| |]; try done.
    simpl in Hr. injection Hr as _ <- _ _. by exists a, b. }
  destruct (py_is event "meeting.participant_joined").
  - destruct (py_get p "join_time" PNone) as [jt| |]; [|by left..].
    destruct (py_truthy jt) eqn:Hjt; [|by left].
    destruct (typed (py_or (py_or a b) (PStr "unknown"))) as [u| |] eqn:Hu; [|by left..].
    destruct (typed name) as [n| |]; [|by left..].
    destruct (typed jt) as [t| |] eqn:Ht; [|by left..].
    right. left. exists m, u, n, t. split_and!; [|by eapply typed_truthy|done].
    by eapply chosen_user_nonempty.
  - destruct (py_is event "meeting.participant_left"); [|by left].
    destruct (py_get p "leave_time" PNone) as [lt| |]; [|by left..].
    destruct (py_truthy lt) eqn:Hlt; [|by left].
    destruct (typed (py_or (py_or a b) (PStr "unknown"))) as [u| |] eqn:Hu; [|by left..].
    destruct (typed lt) as [t| |] eqn:Ht; [|by left..].
    right. right. exists m, u, t. split_and!; [|by eapply typed_truthy|].
    + by eapply chosen_user_nonempty.
    + by destruct (log_leave fromisoformat m u t s).
Qed.

(** The store after a request, when the request is inside the embedding. *)
Lemma webhook_store now body (s s' : store) r :
  webhook now body s = Some (s', r) →
  s' = s ∨
  (∃ m u name jt, u ≠ EmptyString ∧ jt ≠ EmptyString ∧
     s' = log_join now m u name jt s) ∨
  (∃ m u lt, u ≠ EmptyString ∧ lt ≠ EmptyString ∧
     s' = (log_leave fromisoformat m u lt s).1).
Proof.
  unfold zoom_webhook. destruct body as [body|]; [|intros [= <- _]; by left].
  pose proof (webhook_try_store now body s) as H.
  destruct (try_block now body s) as [s0 [r0|e|]]; simpl in H;
    intros [= <- _]; done.
Qed.

(** What the handler stores stays well formed, user ids non-empty. *)
Lemma webhook_from_webhook now body (s s' : store) r :
  webhook now body s = Some (s', r) →
  Forall from_webhook s → Forall from_webhook s'.
Proof.
  intros H Hs.
  destruct (webhook_store now body s s' r H)
    as [->|[(m & u & name & jt & Hu & Hjt & ->)|(m & u & lt & Hu & Hlt & ->)]].
  - done.
  - unfold log_join. apply Forall_app. split; [done|].
    apply Forall_singleton. split; [|done]. split; [done|]. by left.
  - unfold log_leave.
    destruct (find_open m u (reverse s)) as [[i e]|] eqn:Hf; [|done]. simpl.
    apply find_open_Some in Hf as (Hi & _ & _).
    apply Forall_insert; [done|].
    pose proof (Forall_lookup_1 _ _ _ _ Hs Hi) as [[Hj _] Hid].
    split; [|done]. split; [done|]. right. split; [done|]. by exists lt.
Qed.

Lemma serve_from_webhook requests : ∀ s s' : store,
  serve repr_compound hmac_sha256_hex fromisoformat requests s = Some s' →
  Forall from_webhook s → Forall from_webhook s'.
Proof.
  induction requests as [|[now body] rest IH]; intros s s' H Hs.
  - by injection H as <-.
  - simpl in H. destruct (webhook now body s) as [[s0 r]|] eqn:Hw; [|done].
    eapply IH; [done|]. by eapply webhook_from_webhook.
Qed.

End WebhookProps.

(** X14 (what one request can do to the store).  A request inside the
    embedding leaves the store as it was, or appends one entry by
    [log_join] with a non-empty user id and join time, or applies one
    [log_leave] with a non-empty user id and leave time; and the only
    error status the handler answers with is 500. *)
Theorem webhook_changes_store_by_one_event repr hmac parse now body (s s' : store) r :
  zoom_webhook repr hmac parse now body s = Some (s', r) →
  (s' = s ∨
   (∃ m u name jt, u ≠ EmptyString ∧ jt ≠ EmptyString ∧
      s' = log_join now m u name jt s) ∨
   (∃ m u lt, u ≠ EmptyString ∧ lt ≠ EmptyString ∧
      s' = (log_leave parse m u lt s).1)) ∧
  (∀ code, r = HTTPError code → code = 500).
Proof.
  intros H. split; [by eapply webhook_store|].
  intros code ->. unfold zoom_webhook in H.
  destruct body as [body|]; [|by injection H as _ <-].
  destruct (webhook_try repr hmac parse now body s) as [s0 [r0|e|]];
    [done|by injection H as _ <-|done].
Qed.

(** A join request for Alice on the empty store. *)
Lemma webhook_changes_store_by_one_event_witness :
  ([alice_open] = [] ∨
   (∃ m u name jt, u ≠ EmptyString ∧ jt ≠ EmptyString ∧
      [alice_open] = log_join "t0" m u name jt []) ∨
   (∃ m u lt, u ≠ EmptyString ∧ lt ≠ EmptyString ∧
      [alice_open] = (log_leave iso_parse m u lt []).1)) ∧
  (∀ code, Returned (event_response (PStr "meeting.participant_joined"))
           = HTTPError code → code = 500).
Proof.
  apply (webhook_changes_store_by_one_event sample_repr sample_hmac iso_parse "t0"
           (Some (participant_event "meeting.participant_joined" (PStr "M1")
                    [("user_id", PStr "U1"); ("user_name", PStr "Alice");
                     ("join_time", PStr "2024-01-01T09:00:00Z")]))
           [] [alice_open]).
  reflexivity.
Defined.

(** X15 (the stores the webhook builds from strings).  Take a sequence
    of requests in which every user id, user name and timestamp handed to
    [log_join] or [log_leave] is a string, which is what [serve]
    returning a store says.  In the store it builds from the empty one
    every entry has a non-empty user id and join time, a closed entry has
    a non-empty leave time and the flag ["left"], and the entries the
    aggregator counts are exactly those flagged ["left"].  A sequence
    with a request that hands over a number, a list or [null] is not
    covered. *)
Theorem served_store_is_well_formed repr hmac parse requests (s : store) :
  serve repr hmac parse requests [] = Some s →
  (∀ e, e ∈ s → from_webhook e) ∧
  (∀ m u, user_sessions m u s = closed_sessions m u s).
Proof.
  intros H.
  pose proof (serve_from_webhook repr hmac parse requests [] s H (Forall_nil_2 _)) as Hs.
  split; [by apply Forall_forall|].
  intros m u. apply (well_formed_user_sessions parse m u s).
  apply Forall_forall. intros e He.
  by destruct (proj1 (Forall_forall _ _) Hs e He).
Qed.

(** X16 (the URL-validation challenge).  A body whose event is
    ["endpoint.url_validation"] never changes the store.  It is answered
    with the token and its HMAC under the verification token exactly when
    [payload.plainToken] is a non-empty string; a missing, empty or
    non-string token, or a payload that is not a dictionary, gives
    status 500. *)
Theorem url_validation_reply repr hmac parse now items (s : store) :
  items_get "event" items = Some (PStr "endpoint.url_validation") →
  zoom_webhook repr hmac parse now (Some (PDict items)) s =
  Some (s,
        match items_get "payload" items with
        | Some (PDict payload) =>
            match items_get "plainToken" payload with
            | Some (PStr t) =>
                if truthy t
                then Returned (challenge_response t
                                 (hmac ZOOM_VERIFICATION_TOKEN t))
                else HTTPError 500
            | _ => HTTPError 500
            end
        | _ => HTTPError 500
        end).
Proof.
  intros Hev. unfold zoom_webhook, webhook_try. simpl. rewrite Hev. simpl.
  unfold url_validation. simpl.
  destruct (items_get "payload" items) as [[| | | | |l|payload]|]; simpl; try done.
  destruct (items_get "plainToken" payload) as [[|[]|z|f|t|l|d]|]; simpl; try done.
  - by destruct (negb (z =? 0)).
  - by destruct f.
  - by destruct (truthy t).
  - by destruct l.
  - by destruct d.
Qed.

(** The challenge with token ["abc"]. *)
Lemma url_validation_reply_witness :
  zoom_webhook sample_repr sample_hmac iso_parse "t0"
    (Some (PDict [("event", PStr "endpoint.url_validation");
                  ("payload", PDict [("plainToken", PStr "abc")])]))
    [alice_open]
  = Some ([alice_open],
          Returned (challenge_response "abc"
                      (sample_hmac ZOOM_VERIFICATION_TOKEN "abc"))).
Proof.
  apply (url_validation_reply sample_repr sample_hmac iso_parse "t0"
           [("event", PStr "endpoint.url_validation");
            ("payload", PDict [("plainToken", PStr "abc")])] [alice_open]).
  reflexivity.
Defined.

(** X17 (events that are acknowledged and dropped).  A participant event
    of any other type, a join without a truthy [join_time] and a leave
    without a truthy [leave_time] are answered with status ["ok"] and the
    event name, and leave the store as it was. *)
Theorem untimed_events_are_dropped repr hmac parse now ev meeting fields (s : store) :
  ev ≠ "endpoint.url_validation" →
  (ev = "meeting.participant_joined" →
   py_truthy (from_option id PNone (items_get "join_time" fields)) = false) →
  (ev = "meeting.participant_left" →
   py_truthy (from_option id PNone (items_get "leave_time" fields)) = false) →
  zoom_webhook repr hmac parse now (Some (participant_event ev meeting fields)) s =
  Some (s, Returned (event_response (PStr ev))).
Proof.
  intros Hv Hj Hl. unfold zoom_webhook, webhook_try.
  change (py_get (participant_event ev meeting fields) "event" PNone)
    with (Val (PStr ev)).
  rewrite read_participant_event. unfold py_is.
  rewrite (bool_decide_eq_false_2 (ev = "endpoint.url_validation")) by done.
  case_bool_decide as H1.
  - simpl. by rewrite (Hj H1).
  - case_bool_decide as H2; [|done]. simpl. by rewrite (Hl H2).
Qed.

(** A join whose [join_time] is the empty string. *)
Lemma untimed_events_are_dropped_witness :
  zoom_webhook sample_repr sample_hmac iso_parse "t0"
    (Some (participant_event "meeting.participant_joined" (PInt 42)
             [("user_id", PStr "U1"); ("join_time", PStr EmptyString)]))
    [bob_open]
  = Some ([bob_open], Returned (event_response (PStr "meeting.participant_joined"))).
Proof.
  apply untimed_events_are_dropped; [discriminate|reflexivity|discriminate].
Defined.

(** Alice joins and leaves through the webhook. *)
Lemma served_store_is_well_formed_witness :
  (∀ e, e ∈ [alice_closed] → from_webhook e) ∧
  (∀ m u, user_sessions m u [alice_closed] = closed_sessions m u [alice_closed]).
Proof.
  apply (served_store_is_well_formed sample_repr sample_hmac iso_parse
           [("t0", Some (participant_event "meeting.participant_joined" (PStr "M1")
                           [("user_id", PStr "U1"); ("user_name", PStr "Alice");
                            ("join_time", PStr "2024-01-01T09:00:00Z")]));
            ("t1", Some (participant_event "meeting.participant_left" (PStr "M1")
                           [("user_id", PStr "U1");
                            ("leave_time", PStr "2024-01-01T09:45:00Z")]))]).
  reflexivity.
Defined.

(** X18 (an error answer after the store has changed).  When a leave
    request finds its open entry and the duration of that entry raises
    (its join time is aware and the leave time naive, or the reverse), the
    client gets status 500 although the entry has been closed with the
    given leave time. *)
Theorem failed_leave_still_closes_the_entry repr hmac parse now meeting u lt
    (s : store) i e x :
  u ≠ EmptyString → lt ≠ EmptyString →
  find_open (py_str repr meeting) u (reverse s) = Some (i, e) →
  calculate_duration parse (join_time e) lt = Raise x →
  zoom_webhook repr hmac parse now
    (Some (participant_event "meeting.participant_left" meeting
             [("user_id", PStr u); ("leave_time", PStr lt)])) s
  = Some (<[i := close_entry lt e]> s, HTTPError 500).
Proof.
  intros Hu Hlt Hf Hd. unfold zoom_webhook, webhook_try.
  change (py_get (participant_event "meeting.participant_left" meeting
                    [("user_id", PStr u); ("leave_time", PStr lt)]) "event" PNone)
    with (Val (PStr "meeting.participant_left")).
  rewrite read_participant_event.
  set (m := py_str repr meeting) in *. clearbody m. simpl.
  unfold py_or. simpl.
  rewrite (proj2 (truthy_true u) Hu), (proj2 (truthy_true lt) Hlt). simpl.
  rewrite (proj2 (truthy_true u) Hu). simpl.
  unfold log_leave. rewrite Hf, Hd. done.
Qed.

(** Alice joined with a trailing ["Z"]; the leave time has no offset. *)
Lemma failed_leave_still_closes_the_entry_witness :
  zoom_webhook sample_repr sample_hmac iso_parse "t1"
    (Some (participant_event "meeting.participant_left" (PStr "M1")
             [("user_id", PStr "U1"); ("leave_time", PStr "2024-01-01T09:45:00")]))
    [alice_open]
  = Some (<[0%nat := close_entry "2024-01-01T09:45:00" alice_open]> [alice_open],
          HTTPError 500).
Proof.
  apply (failed_leave_still_closes_the_entry sample_repr sample_hmac iso_parse "t1"
           (PStr "M1") "U1" "2024-01-01T09:45:00" [alice_open] 0 alice_open TypeError);
    [discriminate|discriminate|reflexivity|reflexivity].
Defined.

(** X19 (the defaults of a join request).  A join request with a
    non-empty string [join_time] appends an open entry whose meeting id
    is [str] of the payload id.  Without [user_id] and [id] the user id is
    ["unknown"] and without [user_name] the name is ["Unknown User"]; an
    empty [user_id] gives way to a non-empty [id]; a non-empty [user_id]
    wins over [id]; an integer meeting id is stored as its decimal
    numeral. *)
Theorem join_request_defaults repr hmac parse now meeting jt (s : store) :
  jt ≠ EmptyString →
  zoom_webhook repr hmac parse now
    (Some (participant_event "meeting.participant_joined" meeting
             [("join_time", PStr jt)])) s
  = Some (log_join now (py_str repr meeting) "unknown" "Unknown User" jt s,
          Returned (event_response (PStr "meeting.participant_joined"))) ∧
  (∀ pid name, pid ≠ EmptyString →
     zoom_webhook repr hmac parse now
       (Some (participant_event "meeting.participant_joined" meeting
                [("user_id", PStr EmptyString); ("id", PStr pid);
                 ("user_name", PStr name); ("join_time", PStr jt)])) s
     = Some (log_join now (py_str repr meeting) pid name jt s,
             Returned (event_response (PStr "meeting.participant_joined")))) ∧
  (∀ uid pid name, uid ≠ EmptyString →
     zoom_webhook repr hmac parse now
       (Some (participant_event "meeting.participant_joined" meeting
                [("user_id", PStr uid); ("id", PStr pid);
                 ("user_name", PStr name); ("join_time", PStr jt)])) s
     = Some (log_join now (py_str repr meeting) uid name jt s,
             Returned (event_response (PStr "meeting.participant_joined")))) ∧
  (∀ z, meeting = PInt z → py_str repr meeting = pretty z).
Proof.
  intros Hjt. pose proof (proj2 (truthy_true jt) Hjt) as Ht.
  split_and!.
  - unfold zoom_webhook, webhook_try.
    change (py_get (participant_event "meeting.participant_joined" meeting
                      [("join_time", PStr jt)]) "event" PNone)
      with (Val (PStr "meeting.participant_joined")).
    rewrite read_participant_event.
    set (m := py_str repr meeting). clearbody m. simpl. by rewrite Ht.
  - intros pid name Hp. unfold zoom_webhook, webhook_try.
    change (py_get (participant_event "meeting.participant_joined" meeting
                      [("user_id", PStr EmptyString); ("id", PStr pid);
                       ("user_name", PStr name); ("join_time", PStr jt)]) "event" PNone)
      with (Val (PStr "meeting.participant_joined")).
    rewrite read_participant_event.
    set (m := py_str repr meeting). clearbody m. simpl. unfold py_or. simpl.
    rewrite Ht, (proj2 (truthy_true pid) Hp). simpl.
    by rewrite ?(proj2 (truthy_true pid) Hp).
  - intros uid pid name Hu. unfold zoom_webhook, webhook_try.
    change (py_get (participant_event "meeting.participant_joined" meeting
                      [("user_id", PStr uid); ("id", PStr pid);
                       ("user_name", PStr name); ("join_time", PStr jt)]) "event" PNone)
      with (Val (PStr "meeting.participant_joined")).
    rewrite read_participant_event.
    set (m := py_str repr meeting). clearbody m. simpl. unfold py_or. simpl.
    rewrite Ht, (proj2 (truthy_true uid) Hu). simpl.
    by rewrite ?(proj2 (truthy_true uid) Hu).
  - by intros z ->.
Qed.

(** A join for meeting 42 that names nobody. *)
Lemma join_request_defaults_witness :
  zoom_webhook sample_repr sample_hmac iso_parse "t0"
    (Some (participant_event "meeting.participant_joined" (PInt 42)
             [("join_time", PStr "2024-01-01T09:00:00Z")])) []
  = Some ([ {| event := "joined"; meeting_id := "42"; user_id := "unknown";
               user_name := "Unknown User";
               join_time := "2024-01-01T09:00:00Z"; leave_time := None;
               timestamp := "t0" |} ],
          Returned (event_response (PStr "meeting.participant_joined"))).
Proof.
  apply (proj1 (join_request_defaults sample_repr sample_hmac iso_parse "t0"
                  (PInt 42) "2024-01-01T09:00:00Z" [] ltac:(discriminate))).
Defined.

(** X20 (a join request followed by its leave request).  On any store, a
    join request and then a leave request for the same meeting and user,
    both with non-empty strings, leave the old store followed by the one
    new entry in closed form, whatever the two timestamps are. *)
Theorem join_then_leave_requests repr hmac parse t0 t1 meeting u name jt lt (s : store) :
  u ≠ EmptyString → jt ≠ EmptyString → lt ≠ EmptyString →
  serve repr hmac parse
    [ (t0, Some (participant_event "meeting.participant_joined" meeting
                   [("user_id", PStr u); ("user_name", PStr name);
                    ("join_time", PStr jt)]));
      (t1, Some (participant_event "meeting.participant_left" meeting
                   [("user_id", PStr u); ("leave_time", PStr lt)])) ] s
  = Some (s ++ [ {| event := "left"; meeting_id := py_str repr meeting;
                    user_id := u; user_name := name; join_time := jt;
                    leave_time := Some lt; timestamp := t0 |} ]).
Proof.
  intros Hu Hjt Hlt.
  pose proof (proj2 (truthy_true u) Hu) as Tu.
  pose proof (proj2 (truthy_true jt) Hjt) as Tj.
  pose proof (proj2 (truthy_true lt) Hlt) as Tl.
  unfold serve, zoom_webhook, webhook_try.
  change (py_get (participant_event "meeting.participant_joined" meeting
                    [("user_id", PStr u); ("user_name", PStr name);
                     ("join_time", PStr jt)]) "event" PNone)
    with (Val (PStr "meeting.participant_joined")).
  change (py_get (participant_event "meeting.participant_left" meeting
                    [("user_id", PStr u); ("leave_time", PStr lt)]) "event" PNone)
    with (Val (PStr "meeting.participant_left")).
  rewrite !read_participant_event.
  set (m := py_str repr meeting). clearbody m. simpl. unfold py_or. simpl.
  rewrite Tu, Tj, Tl. simpl. rewrite Tu. simpl.
  rewrite log_leave_log_join.
  by destruct (calculate_duration parse jt lt).
Qed.

(** Alice's join and leave requests on a store that holds Bob. *)
Lemma join_then_leave_requests_witness :
  serve sample_repr sample_hmac iso_parse
    [ ("t0", Some (participant_event "meeting.participant_joined" (PStr "M1")
                     [("user_id", PStr "U1"); ("user_name", PStr "Alice");
                      ("join_time", PStr "2024-01-01T09:00:00Z")]));
      ("t9", Some (participant_event "meeting.participant_left" (PStr "M1")
                     [("user_id", PStr "U1");
                      ("leave_time", PStr "2024-01-01T09:45:00Z")])) ] [bob_open]
  = Some ([bob_open; alice_closed]).
Proof.
  apply (join_then_leave_requests sample_repr sample_hmac iso_parse "t0" "t9"
           (PStr "M1") "U1" "Alice" "2024-01-01T09:00:00Z" "2024-01-01T09:45:00Z"
           [bob_open]); discriminate.
Defined.
